(** * web-delta: the crawl-and-diff engine of [MigrationComparator] and
      [SimpleMigrationComparator]

    A shallow embedding of the two comparator classes: the JavaScript string
    primitives they call, the recursive crawler, the field extractor, the
    field differ, the URL reconciliation and the report that
    [compareWebsites] builds.

    JavaScript strings are modelled by [string]; every [ascii] stands for one
    code unit.  The URLs the crawler sees come from [link.href] and are
    therefore ASCII. *)

From Stdlib Require Import Ascii String List Arith Bool Lia.
From stdpp Require Import gmap strings list fin_maps.
Import ListNotations.

Open Scope string_scope.
Open Scope list_scope.

(** ** JavaScript string primitives *)

Module JS.

(** [s.startsWith(p)] *)
Fixpoint startsWith (s p : string) {struct p} : bool :=
  match p, s with
  | EmptyString, _ => true
  | String _ _, EmptyString => false
  | String a p', String b s' => if Ascii.eqb a b then startsWith s' p' else false
  end.

(** [s.slice(n)] for [0 <= n]. *)
Fixpoint slice (n : nat) (s : string) : string :=
  match n, s with
  | O, _ => s
  | S _, EmptyString => EmptyString
  | S n', String _ s' => slice n' s'
  end.

(** The first occurrence of [pat] in [s] (as [s.indexOf(pat)] finds it),
    returned as the text before it and the text after it. *)
Fixpoint splitFirst (pat s : string) : option (string * string) :=
  if startsWith s pat then Some (EmptyString, slice (String.length pat) s)
  else match s with
       | EmptyString => None
       | String c s' =>
           match splitFirst pat s' with
           | Some (before, after) => Some (String c before, after)
           | None => None
           end
       end.

(** GetSubstitution of ECMA-262 for a string pattern: there are no captures,
    so only [$$], [$&], [$`] and [$'] are expanded; every other [$] is
    copied. *)
Fixpoint getSubstitution (matched before after template : string) : string :=
  match template with
  | EmptyString => EmptyString
  | String c t =>
      if Ascii.eqb c "$" then
        match t with
        | EmptyString => String c EmptyString
        | String d t' =>
            if Ascii.eqb d "$" then String "$" (getSubstitution matched before after t')
            else if Ascii.eqb d "&" then matched ++ getSubstitution matched before after t'
            else if Ascii.eqb d "`" then before ++ getSubstitution matched before after t'
            else if Ascii.eqb d "'" then after ++ getSubstitution matched before after t'
            else String c (getSubstitution matched before after t)
        end
      else String c (getSubstitution matched before after t)
  end.

(** [s.replace(pat, repl)] with a string pattern: the first occurrence only. *)
Definition replace (s pat repl : string) : string :=
  match splitFirst pat s with
  | None => s
  | Some (before, after) => before ++ getSubstitution pat before after repl ++ after
  end.

(** The character class [a-zA-Z0-9]. *)
Definition isAlnum (c : ascii) : bool :=
  let n := nat_of_ascii c in
  (Nat.leb 97 n && Nat.leb n 122) || (Nat.leb 65 n && Nat.leb n 90)
  || (Nat.leb 48 n && Nat.leb n 57).

(** [s.replace(/[^a-zA-Z0-9]/g, '_')] *)
Fixpoint sanitize (s : string) : string :=
  match s with
  | EmptyString => EmptyString
  | String c s' => String (if isAlnum c then c else "_"%char) (sanitize s')
  end.

(** White space as [String.prototype.trim] sees it among the code units
    below 256: TAB, LF, VT, FF, CR, SPACE and NO-BREAK SPACE. *)
Definition isSpace (c : ascii) : bool :=
  let n := nat_of_ascii c in
  (Nat.leb 9 n && Nat.leb n 13) || Nat.eqb n 32 || Nat.eqb n 160.

Fixpoint trimStart (s : string) : string :=
  match s with
  | EmptyString => EmptyString
  | String c s' => if isSpace c then trimStart s' else s
  end.

Fixpoint trimEnd (s : string) : string :=
  match s with
  | EmptyString => EmptyString
  | String c s' =>
      match trimEnd s' with
      | EmptyString => if isSpace c then EmptyString else String c EmptyString
      | t => String c t
      end
  end.

(** [s.trim()] *)
Definition trim (s : string) : string := trimEnd (trimStart s).

(** [arr.includes(x)] on an array of strings. *)
Definition includes (arr : list string) (x : string) : bool :=
  existsb (String.eqb x) arr.

(** [set.has(x)] and [set.add(x)]: a [Set] keeps insertion order and holds
    no value twice; [Array.from(set)] is the list itself. *)
Definition has (set : list string) (x : string) : bool := includes set x.

Definition add (set : list string) (x : string) : list string :=
  if has set x then set else set ++ [x].

(** The values a field of a page record can hold. *)
Inductive value : Type :=
| Undefined
| Null
| Str (s : string).

(** [a !== b] *)
Definition strictNe (a b : value) : bool :=
  match a, b with
  | Undefined, Undefined => false
  | Null, Null => false
  | Str s, Str t => negb (String.eqb s t)
  | _, _ => true
  end.

(** Truthiness of a string: only the empty string is falsy. *)
Definition truthy (s : string) : bool := negb (String.eqb s EmptyString).

End JS.

(** ** The crawler: [crawlWebsite] and its closure [crawlPage] *)

(** What the calls on puppeteer inside the [try] block of [crawlPage] did, by
    the place of the first exception:
    - [NavFail caught]: [launch], [newPage], [initialize], [goto] or
      [content] threw, before any snapshot was taken;
    - [LinksFail html caught]: [content] returned [html], and [page.evaluate]
      threw or brought back a value without [forEach];
    - [CloseFail html pageUrls caught]: [browser.close()] threw after the
      links were read (the call exists in [SimpleMigrationComparator] only);
    - [Rendered html pageUrls]: nothing threw.

    [pageUrls] is the array that [page.evaluate] brought back.  Its callback
    runs inside the crawled page, with the built-ins that the scripts of the
    page left there; [pageUrlsOf] below is what it returns when they are
    intact.  Nothing on the side of Node checks the array; its members are
    taken to be strings.

    [caught] tells whether the [catch] block runs to its end.  It reads
    [error.message], and the one of [MigrationComparator] calls
    [error.message.includes]: when the promise was rejected with [null] or
    [undefined], and in [MigrationComparator] also with a value whose
    [message] has no method [includes], as when it is [undefined], or when
    [initialize] is rejected with [null] or [undefined] in the [catch]
    block, the [catch] block itself throws a [TypeError] and [caught] is
    [false]. *)
Inductive Outcome : Type :=
| NavFail (caught : bool)
| LinksFail (html : string) (caught : bool)
| CloseFail (html : string) (pageUrls : list string) (caught : bool)
| Rendered (html : string) (pageUrls : list string).

(** How a call of [crawlPage] ends: it returns, or an exception leaves it. *)
Inductive Completion : Type :=
| Returned
| Thrown.

(** The variables [crawlPage] closes over, with the state [browser] of the
    rendering session. *)
Record Session (R : Type) : Type := mkSession {
  allUrls : list string;
  visitedUrls : list string;
  htmlSnapshots : gmap string string;
  pageCount : nat;
  browser : R
}.
Arguments mkSession {R}.
Arguments allUrls {R}.
Arguments visitedUrls {R}.
Arguments htmlSnapshots {R}.
Arguments pageCount {R}.
Arguments browser {R}.

(** What [crawlWebsite] returns. *)
Record CrawlData : Type := mkCrawlData {
  urls : list string;
  snapshots : gmap string string
}.

(** A computation on the session.  It yields the list of the sessions it
    went through, one after every assignment, and its result, [None] when
    the recursion is deeper than the fuel. *)
Definition Crawl (R A : Type) : Type :=
  Session R -> list (Session R) * option (A * Session R).

Definition ret {R A} (a : A) : Crawl R A := fun s => ([], Some (a, s)).

Definition bind {R A B} (m : Crawl R A) (k : A -> Crawl R B) : Crawl R B :=
  fun s =>
    match m s with
    | (l1, None) => (l1, None)
    | (l1, Some (a, s1)) =>
        match k a s1 with
        | (l2, r) => (l1 ++ l2, r)
        end
    end.

Definition get {R} : Crawl R (Session R) := fun s => ([], Some (s, s)).

Definition modify {R} (f : Session R -> Session R) : Crawl R unit :=
  fun s => ([f s], Some (tt, f s)).

Definition outOfFuel {R A} : Crawl R A := fun s => ([], None).

Notation "x <- m ;; k" := (bind m (fun x => k))
  (at level 100, m at next level, right associativity).
Notation "m ;;; k" := (bind m (fun _ => k))
  (at level 100, right associativity).

(** [xs.forEach(body)] for a [body] that does not throw. *)
Fixpoint forEach {R} (body : string -> Crawl R unit) (xs : list string) : Crawl R unit :=
  match xs with
  | [] => ret tt
  | x :: xs' => body x ;;; forEach body xs'
  end.

(** [for (const x of xs) { await body(x) }]: the loop is left by the first
    exception that leaves [body]. *)
Fixpoint forOf {R} (body : string -> Crawl R Completion) (xs : list string)
    : Crawl R Completion :=
  match xs with
  | [] => ret Returned
  | x :: xs' =>
      c <- body x ;;
      match c with
      | Returned => forOf body xs'
      | Thrown => ret Thrown
      end
  end.

(** [[...new Set(urlArray)]] *)
Definition unique (urlArray : list string) : list string :=
  fold_left JS.add urlArray [].

Section Crawler.
Context {R : Type}.
(** The rendering session: from its state and a URL, its next state and
    what happened. *)
Variable render : R -> string -> R * Outcome.
Variable baseUrl : string.
(** [Some m] is [SimpleMigrationComparator.crawlWebsite(baseUrl, m)];
    [None] is [MigrationComparator.crawlWebsite(baseUrl)], which has no
    budget and no [pageCount] (the counter is kept and never read). *)
Variable maxPages : option nat.

(** [pageCount >= maxPages] *)
Definition budgetReached (s : Session R) : bool :=
  match maxPages with
  | Some m => Nat.leb m (pageCount s)
  | None => false
  end.

(** [visitedUrls.add(url)] *)
Definition visit (url : string) (s : Session R) : Session R :=
  mkSession (allUrls s) (JS.add (visitedUrls s) url) (htmlSnapshots s)
    (pageCount s) (browser s).

(** [pageCount++] *)
Definition countPage (s : Session R) : Session R :=
  mkSession (allUrls s) (visitedUrls s) (htmlSnapshots s)
    (S (pageCount s)) (browser s).

(** [htmlSnapshots[url.replace(/[^a-zA-Z0-9]/g, '_')] = html] *)
Definition store (url html : string) (s : Session R) : Session R :=
  mkSession (allUrls s) (visitedUrls s)
    (<[JS.sanitize url := html]> (htmlSnapshots s))
    (pageCount s) (browser s).

(** [allUrls.add(url)] *)
Definition discover (url : string) (s : Session R) : Session R :=
  mkSession (JS.add (allUrls s) url) (visitedUrls s) (htmlSnapshots s)
    (pageCount s) (browser s).

(** The calls on puppeteer for one page. *)
Definition renderPage (url : string) : Crawl R Outcome :=
  fun s =>
    let (r, o) := render (browser s) url in
    let s' := mkSession (allUrls s) (visitedUrls s) (htmlSnapshots s)
                (pageCount s) r in
    ([s'], Some (o, s')).

(** The callback of [page.evaluate], run with the built-ins it uses intact
    on a page whose links are [hrefs], that is
    [Array.from(document.links).map(link => link.href)]: the links of the
    page, once each, that start with [baseUrl]. *)
Definition pageUrlsOf (hrefs : list string) : list string :=
  List.filter (fun url => JS.startsWith url baseUrl) (unique hrefs).

(** The guard at the head of [crawlPage]. *)
Definition skipped (url : string) (s : Session R) : bool :=
  JS.has (visitedUrls s) url || negb (JS.startsWith url baseUrl) || budgetReached s.

(** The condition of the loop over [pageUrls]. *)
Definition wanted (newUrl : string) (s : Session R) : bool :=
  negb (JS.has (visitedUrls s) newUrl) && negb (budgetReached s).

(** The body of the loop over [pageUrls]; [crawl] is the recursive call. *)
Definition crawlIfWanted (crawl : string -> Crawl R Completion) (newUrl : string)
    : Crawl R Completion :=
  s <- get ;;
  if wanted newUrl s then crawl newUrl else ret Returned.

(** The end of the [catch] block. *)
Definition ended (caught : bool) : Completion := if caught then Returned else Thrown.

(** What [crawlPage] does with the outcome of the page, up to the end of
    the [try] block or of the [catch] block.  The recursive calls are inside
    the [try] block: an exception that leaves one of them ends the loop and
    is caught here; it is the [TypeError] of a [catch] block, whose message
    this [catch] block reports, and the call returns. *)
Definition afterRender (crawl : string -> Crawl R Completion) (url : string) (o : Outcome)
    : Crawl R Completion :=
  match o with
  | NavFail caught => ret (ended caught)
  | LinksFail html caught =>
      modify (store url html) ;;;
      ret (ended caught)
  | CloseFail html pageUrls caught =>
      modify (store url html) ;;;
      forEach (fun u => modify (discover u)) pageUrls ;;;
      ret (ended caught)
  | Rendered html pageUrls =>
      modify (store url html) ;;;
      forEach (fun u => modify (discover u)) pageUrls ;;;
      forOf (crawlIfWanted crawl) pageUrls ;;;
      ret Returned
  end.

Fixpoint crawlPage (fuel : nat) (url : string) : Crawl R Completion :=
  match fuel with
  | O => outOfFuel
  | S fuel' =>
      s <- get ;;
      if skipped url s then ret Returned
      else
        modify (visit url) ;;;
        modify countPage ;;;
        o <- renderPage url ;;
        afterRender (crawlPage fuel') url o
  end.

Definition newSession (r : R) : Session R := mkSession [] [] ∅ 0 r.

(** How [await crawlPage(baseUrl)] ends from the fresh closure: [None] when
    the recursion is deeper than the fuel. *)
Definition crawlEnd (fuel : nat) (r : R) : option (Completion * Session R) :=
  snd (crawlPage fuel baseUrl (newSession r)).

(** The session a call returns in. *)
Definition returned (res : option (Completion * Session R)) : option (unit * Session R) :=
  match res with
  | Some (Returned, s) => Some (tt, s)
  | Some (Thrown, _) | None => None
  end.

(** The run of [crawlPage(baseUrl)] from the fresh closure: the sessions it
    goes through and, when the call returns, the session it returns in. *)
Definition crawlRun (fuel : nat) (r : R) : list (Session R) * option (unit * Session R) :=
  (fst (crawlPage fuel baseUrl (newSession r)), returned (crawlEnd fuel r)).

(** Every session the crawl goes through, the first one included. *)
Definition crawlStates (fuel : nat) (r : R) : list (Session R) :=
  newSession r :: fst (crawlRun fuel r).

(** [{ urls: Array.from(allUrls), snapshots: htmlSnapshots }], once
    [crawlPage(baseUrl)] has returned.  When an exception leaves that call,
    [crawlWebsite] is rejected and has no result: [None], as when the fuel
    runs out; [crawlEnd] tells the two apart. *)
Definition crawlWebsite (fuel : nat) (r : R) : option (CrawlData * R) :=
  match snd (crawlRun fuel r) with
  | Some (_, s) => Some (mkCrawlData (allUrls s) (htmlSnapshots s), browser s)
  | None => None
  end.
End Crawler.

(** ** The document a page holds once [setContent(html)] has parsed it *)

Module Dom.

(** An element: its lower-case name, its attributes and its [textContent]. *)
Record Element : Type := mkElement {
  localName : string;
  attributes : list (string * string);
  textContent : string
}.

(** [document.title] and the elements in document order. *)
Record Document : Type := mkDocument {
  title : string;
  elements : list Element
}.

Fixpoint attribute (attrs : list (string * string)) (name : string) : option string :=
  match attrs with
  | [] => None
  | (k, v) :: rest => if String.eqb k name then Some v else attribute rest name
  end.

(** [el.getAttribute(name)]: [null] when the element has no such attribute. *)
Definition getAttribute (el : Element) (name : string) : JS.value :=
  match attribute (attributes el) name with
  | Some v => JS.Str v
  | None => JS.Null
  end.

Definition hasAttributeValue (el : Element) (name v : string) : bool :=
  match attribute (attributes el) name with
  | Some w => String.eqb w v
  | None => false
  end.

(** [document.querySelector(`meta[name="${name}"], meta[property="${name}"]`)] *)
Definition queryMeta (d : Document) (name : string) : option Element :=
  List.find (fun el => String.eqb (localName el) "meta"
                       && (hasAttributeValue el "name" name
                           || hasAttributeValue el "property" name))
            (elements d).

(** [document.querySelector(selector)] for a type selector. *)
Definition queryType (d : Document) (selector : string) : option Element :=
  List.find (fun el => String.eqb (localName el) selector) (elements d).

(** [meta ? meta.getAttribute('content') : ''] *)
Definition getMetaContent (d : Document) (name : string) : JS.value :=
  match queryMeta d name with
  | Some meta => getAttribute meta "content"
  | None => JS.Str ""
  end.

(** [element ? element.textContent.trim() : ''] *)
Definition getTextContent (d : Document) (selector : string) : string :=
  match queryType d selector with
  | Some element => JS.trim (textContent element)
  | None => ""
  end.

(** [a || b] on strings *)
Definition orElse (a b : string) : string := if JS.truthy a then a else b.

End Dom.

(** ** Page records, change lists and the report *)

(** An object literal: its keys in the order they are written. *)
Definition PageInfo : Type := list (string * JS.value).

Definition keys (o : PageInfo) : list string := List.map fst o.

(** [o.k]: [undefined] when [o] has no key [k]. *)
Fixpoint prop (o : PageInfo) (k : string) : JS.value :=
  match o with
  | [] => JS.Undefined
  | (k', v) :: rest => if String.eqb k' k then v else prop rest k
  end.

Record Change : Type := mkChange {
  field : string;
  old : JS.value;
  new : JS.value;
  type : string
}.

Record Differences : Type := mkDifferences {
  url : string;
  changes : list Change
}.

(** The closure [compareField] of [comparePageInfo], on the object
    [differences] it pushes to. *)
Definition compareField (field : string) (oldValue newValue : JS.value)
    (differences : Differences) : Differences :=
  if JS.strictNe oldValue newValue
  then mkDifferences (url differences)
         (changes differences ++ [mkChange field oldValue newValue "content_change"])
  else differences.

Record TestInfo : Type := mkTestInfo {
  timestamp : string;
  oldDomain : string;
  newDomain : string;
  (** [testDuration] in one class, [testType] in the other *)
  testTag : string * string
}.

Module Summary.
Record t : Type := mk {
  oldWebsiteUrls : nat;
  newWebsiteUrls : nat;
  missingUrls : nat;
  newUrls : nat;
  pagesWithChanges : nat
}.
End Summary.

Record SeoImpact : Type := mkSeoImpact {
  pagesWithTitleChanges : nat;
  pagesWithDescriptionChanges : nat;
  pagesWithCanonicalChanges : nat
}.

Record Results : Type := mkResults {
  testInfo : TestInfo;
  summary : Summary.t;
  missingUrls : list string;
  newUrls : list string;
  pageComparisons : list Differences;
  seoImpact : SeoImpact
}.

(** [p.changes.some(c => c.field === name)] *)
Definition changesField (name : string) (p : Differences) : bool :=
  existsb (fun c => String.eqb (field c) name) (changes p).

(** [snapshots[key]] used as a condition: [undefined] and [''] are falsy.
    The keys looked up are sanitized absolute URLs; none of them names a
    property that the object inherits. *)
Definition present (snapshot : option string) : bool :=
  match snapshot with
  | Some html => JS.truthy html
  | None => false
  end.

(** What the calls on puppeteer inside the [try] block of [extractPageInfo]
    did:
    - [Intact d]: nothing threw, and the scripts of the snapshot left alone
      the built-ins that the callback of [tempPage.evaluate] uses; [d] is the
      document of the page when the callback runs, and the callback runs as
      it is written;
    - [Altered pageInfo]: nothing threw, and the callback ran with built-ins
      that the scripts of the snapshot had changed; [pageInfo] is the object
      that came back, with the members that [evaluate] carries over (a member
      that is [undefined] is dropped), taken to be strings or [null];
    - [Faulted caught]: a call threw.  The [catch] block reads
      [error.message]: when the promise was rejected with [null] or
      [undefined] the [catch] block throws and [caught] is [false]. *)
Inductive Extraction : Type :=
| Intact (d : Dom.Document)
| Altered (pageInfo : PageInfo)
| Faulted (caught : bool).

(** ** The loop and the report of [compareWebsites], shared by the two
    classes

    The writes of the snapshot, result and report files and the console
    output are left out.  [extractPageInfo] takes the HTML only: its second
    argument [url] is used in the log message alone.  In this section
    [extractPageInfo] gives a record at every call; [awaited] below turns
    the method of a class, which can be rejected, into such a function. *)

Section Comparator.
Context {R : Type}.
(** The methods in which the two classes differ. *)
Variable extractPageInfo : R -> string -> R * PageInfo.
Variable comparePageInfo : PageInfo -> PageInfo -> string -> Differences.
Variables oldDomain newDomain : string.
(** What the clock gives for [testInfo]. *)
Variable timestamp : string.
Variable testTag : string * string.

(** [url.replace(this.oldDomain, this.newDomain)] *)
Definition convert (url : string) : string := JS.replace url oldDomain newDomain.

(** The body of the loop over [commonUrls], on the browser and the array
    [pageComparisons]. *)
Definition comparePair (oldData newData : CrawlData) (oldUrl : string)
    (st : R * list Differences) : R * list Differences :=
  let newUrl := convert oldUrl in
  let oldUrlKey := JS.sanitize oldUrl in
  let newUrlKey := JS.sanitize newUrl in
  if present (snapshots oldData !! oldUrlKey) && present (snapshots newData !! newUrlKey)
  then
    let (r1, oldInfo) := extractPageInfo (fst st) (default "" (snapshots oldData !! oldUrlKey)) in
    let (r2, newInfo) := extractPageInfo r1 (default "" (snapshots newData !! newUrlKey)) in
    let comparison := comparePageInfo oldInfo newInfo newUrl in
    if Nat.ltb 0 (List.length (changes comparison))
    then (r2, snd st ++ [comparison])
    else (r2, snd st)
  else st.

(** [compareWebsites] from the two crawl results on. *)
Definition report (oldData newData : CrawlData) (r : R) : Results * R :=
  let oldUrlsConverted := List.map convert (urls oldData) in
  let missingUrls :=
    List.filter (fun url => negb (JS.includes (urls newData) url)) oldUrlsConverted in
  let newUrls :=
    List.filter (fun url => negb (JS.includes oldUrlsConverted url)) (urls newData) in
  let commonUrls :=
    List.filter (fun url => JS.includes (urls newData) (convert url)) (urls oldData) in
  let (r', pageComparisons) :=
    fold_left (fun st oldUrl => comparePair oldData newData oldUrl st) commonUrls (r, []) in
  (mkResults
     (mkTestInfo timestamp oldDomain newDomain testTag)
     (Summary.mk (List.length (urls oldData)) (List.length (urls newData))
        (List.length missingUrls) (List.length newUrls) (List.length pageComparisons))
     missingUrls newUrls pageComparisons
     (mkSeoImpact
        (List.length (List.filter (changesField "title") pageComparisons))
        (List.length (List.filter (changesField "description") pageComparisons))
        (List.length (List.filter (changesField "canonical") pageComparisons))),
   r').

End Comparator.

(** ** [compareWebsites]

    The run starts once [initialize] has given a browser (a failure there
    rejects the whole run). *)

Section Run.
Context {R : Type}.
Variable render : R -> string -> R * Outcome.
(** The methods and the budget in which the two classes differ.
    [extractPageInfo] gives [None] when its promise is rejected. *)
Variable extractPageInfo : R -> string -> R * option PageInfo.
Variable comparePageInfo : PageInfo -> PageInfo -> string -> Differences.
Variable maxPages : option nat.
Variables oldDomain newDomain : string.
Variable timestamp : string.
Variable testTag : string * string.

(** [await this.extractPageInfo(html, url)] in the loop of [compareWebsites].
    The state is [Some r], the browser, as long as no call has been
    rejected.  A rejection is not caught in the loop: it ends the loop and
    [compareWebsites] is rejected with it.  From then on the state is
    [None]: the turns that remain change nothing, and the records they are
    given are never used, since the run has no result. *)
Definition awaited (st : option R) (html : string) : option R * PageInfo :=
  match st with
  | Some r =>
      match extractPageInfo r html with
      | (r', Some pageInfo) => (Some r', pageInfo)
      | (_, None) => (None, [])
      end
  | None => (None, [])
  end.

(** [None]: one of the two crawls has no result, or a call of
    [extractPageInfo] was rejected. *)
Definition compareWebsites (fuel : nat) (r : R) : option (Results * R) :=
  match crawlWebsite render oldDomain maxPages fuel r with
  | None => None
  | Some (oldData, r1) =>
      match crawlWebsite render newDomain maxPages fuel r1 with
      | None => None
      | Some (newData, r2) =>
          match report awaited comparePageInfo oldDomain newDomain timestamp testTag
                  oldData newData (Some r2) with
          | (results, Some r3) => Some (results, r3)
          | (_, None) => None
          end
      end
  end.
End Run.

(** ** The class [MigrationComparator] *)

Module MigrationComparator.

(** The callback of [tempPage.evaluate] in [extractPageInfo], run as it is
    written on the document [d]. *)
Definition pageInfoOf (d : Dom.Document) : PageInfo :=
  [ ("title", JS.Str (Dom.title d));
    ("description", Dom.getMetaContent d "description");
    ("keywords", Dom.getMetaContent d "keywords");
    ("h1", JS.Str (Dom.getTextContent d "h1"));
    ("h2", JS.Str (Dom.getTextContent d "h2"));
    ("mainContent",
      JS.Str (Dom.orElse (Dom.getTextContent d "main") (Dom.getTextContent d "body")));
    ("canonical", Dom.getMetaContent d "canonical");
    ("robots", Dom.getMetaContent d "robots");
    ("ogTitle", Dom.getMetaContent d "og:title");
    ("ogDescription", Dom.getMetaContent d "og:description");
    ("ogImage", Dom.getMetaContent d "og:image");
    ("twitterCard", Dom.getMetaContent d "twitter:card");
    ("twitterTitle", Dom.getMetaContent d "twitter:title");
    ("twitterDescription", Dom.getMetaContent d "twitter:description") ].

(** The record of the [catch] branch. *)
Definition emptyInfo : PageInfo :=
  [ ("title", JS.Str ""); ("description", JS.Str ""); ("keywords", JS.Str "");
    ("h1", JS.Str ""); ("h2", JS.Str ""); ("mainContent", JS.Str "");
    ("canonical", JS.Str ""); ("robots", JS.Str ""); ("ogTitle", JS.Str "");
    ("ogDescription", JS.Str ""); ("ogImage", JS.Str ""); ("twitterCard", JS.Str "");
    ("twitterTitle", JS.Str ""); ("twitterDescription", JS.Str "") ].

(** [setContent] stands for [newPage], [setContent(html)], [evaluate] and
    [close] on the browser.  The result is [None] when the promise is
    rejected. *)
Definition extractPageInfo {R : Type}
    (setContent : R -> string -> R * Extraction)
    (r : R) (html : string) : R * option PageInfo :=
  match setContent r html with
  | (r', Intact d) => (r', Some (pageInfoOf d))
  | (r', Altered pageInfo) => (r', Some pageInfo)
  | (r', Faulted true) => (r', Some emptyInfo)
  | (r', Faulted false) => (r', None)
  end.

Definition comparePageInfo (oldInfo newInfo : PageInfo) (url : string) : Differences :=
  let differences := mkDifferences url [] in
  let differences := compareField "title" (prop oldInfo "title") (prop newInfo "title") differences in
  let differences := compareField "description" (prop oldInfo "description") (prop newInfo "description") differences in
  let differences := compareField "keywords" (prop oldInfo "keywords") (prop newInfo "keywords") differences in
  let differences := compareField "h1" (prop oldInfo "h1") (prop newInfo "h1") differences in
  let differences := compareField "h2" (prop oldInfo "h2") (prop newInfo "h2") differences in
  let differences := compareField "canonical" (prop oldInfo "canonical") (prop newInfo "canonical") differences in
  let differences := compareField "robots" (prop oldInfo "robots") (prop newInfo "robots") differences in
  let differences := compareField "ogTitle" (prop oldInfo "ogTitle") (prop newInfo "ogTitle") differences in
  let differences := compareField "ogDescription" (prop oldInfo "ogDescription") (prop newInfo "ogDescription") differences in
  let differences := compareField "ogImage" (prop oldInfo "ogImage") (prop newInfo "ogImage") differences in
  let differences := compareField "twitterCard" (prop oldInfo "twitterCard") (prop newInfo "twitterCard") differences in
  let differences := compareField "twitterTitle" (prop oldInfo "twitterTitle") (prop newInfo "twitterTitle") differences in
  let differences := compareField "twitterDescription" (prop oldInfo "twitterDescription") (prop newInfo "twitterDescription") differences in
  differences.

(** The first arguments of the calls of [compareField], in order. *)
Definition comparedFields : list string :=
  [ "title"; "description"; "keywords"; "h1"; "h2"; "canonical"; "robots";
    "ogTitle"; "ogDescription"; "ogImage"; "twitterCard"; "twitterTitle";
    "twitterDescription" ].

(** [crawlWebsite(baseUrl)]: no page budget. *)
Definition crawlWebsite {R : Type} (render : R -> string -> R * Outcome)
    (baseUrl : string) (fuel : nat) (r : R) : option (CrawlData * R) :=
  crawlWebsite render baseUrl None fuel r.

Definition compareWebsites {R : Type} (render : R -> string -> R * Outcome)
    (setContent : R -> string -> R * Extraction)
    (oldDomain newDomain timestamp testDuration : string)
    (fuel : nat) (r : R) : option (Results * R) :=
  compareWebsites render (extractPageInfo setContent) comparePageInfo None
    oldDomain newDomain timestamp ("testDuration", testDuration) fuel r.

End MigrationComparator.

(** ** The class [SimpleMigrationComparator] *)

Module SimpleMigrationComparator.

Definition pageInfoOf (d : Dom.Document) : PageInfo :=
  [ ("title", JS.Str (Dom.title d));
    ("description", Dom.getMetaContent d "description");
    ("keywords", Dom.getMetaContent d "keywords");
    ("h1", JS.Str (Dom.getTextContent d "h1"));
    ("h2", JS.Str (Dom.getTextContent d "h2"));
    ("canonical", Dom.getMetaContent d "canonical");
    ("robots", Dom.getMetaContent d "robots");
    ("ogTitle", Dom.getMetaContent d "og:title");
    ("ogDescription", Dom.getMetaContent d "og:description") ].

Definition emptyInfo : PageInfo :=
  [ ("title", JS.Str ""); ("description", JS.Str ""); ("keywords", JS.Str "");
    ("h1", JS.Str ""); ("h2", JS.Str ""); ("canonical", JS.Str "");
    ("robots", JS.Str ""); ("ogTitle", JS.Str ""); ("ogDescription", JS.Str "") ].

(** [setContent] stands for [launch], [newPage], [setContent(html)],
    [evaluate] and [close].  The result is [None] when the promise is
    rejected. *)
Definition extractPageInfo {R : Type}
    (setContent : R -> string -> R * Extraction)
    (r : R) (html : string) : R * option PageInfo :=
  match setContent r html with
  | (r', Intact d) => (r', Some (pageInfoOf d))
  | (r', Altered pageInfo) => (r', Some pageInfo)
  | (r', Faulted true) => (r', Some emptyInfo)
  | (r', Faulted false) => (r', None)
  end.

Definition comparePageInfo (oldInfo newInfo : PageInfo) (url : string) : Differences :=
  let differences := mkDifferences url [] in
  let differences := compareField "title" (prop oldInfo "title") (prop newInfo "title") differences in
  let differences := compareField "description" (prop oldInfo "description") (prop newInfo "description") differences in
  let differences := compareField "keywords" (prop oldInfo "keywords") (prop newInfo "keywords") differences in
  let differences := compareField "h1" (prop oldInfo "h1") (prop newInfo "h1") differences in
  let differences := compareField "h2" (prop oldInfo "h2") (prop newInfo "h2") differences in
  let differences := compareField "canonical" (prop oldInfo "canonical") (prop newInfo "canonical") differences in
  let differences := compareField "robots" (prop oldInfo "robots") (prop newInfo "robots") differences in
  let differences := compareField "ogTitle" (prop oldInfo "ogTitle") (prop newInfo "ogTitle") differences in
  let differences := compareField "ogDescription" (prop oldInfo "ogDescription") (prop newInfo "ogDescription") differences in
  differences.

Definition comparedFields : list string :=
  [ "title"; "description"; "keywords"; "h1"; "h2"; "canonical"; "robots";
    "ogTitle"; "ogDescription" ].

(** [crawlWebsite(baseUrl, maxPages)] *)
Definition crawlWebsite {R : Type} (render : R -> string -> R * Outcome)
    (baseUrl : string) (maxPages : nat) (fuel : nat) (r : R) : option (CrawlData * R) :=
  crawlWebsite render baseUrl (Some maxPages) fuel r.

(** [compareWebsites] crawls both sites with [maxPages = 10]. *)
Definition compareWebsites {R : Type} (render : R -> string -> R * Outcome)
    (setContent : R -> string -> R * Extraction)
    (oldDomain newDomain timestamp : string)
    (fuel : nat) (r : R) : option (Results * R) :=
  compareWebsites render (extractPageInfo setContent) comparePageInfo (Some 10)
    oldDomain newDomain timestamp ("testType", "simple_comparison") fuel r.

End SimpleMigrationComparator.

(** ** Notions the statements below use *)


(** A change read from the other side. *)
Definition swap (c : Change) : Change := mkChange (field c) (new c) (old c) (type c).

(** The change [comparePageInfo] records for one field, if any. *)
Definition fieldChange (oldInfo newInfo : PageInfo) (name : string) : list Change :=
  if JS.strictNe (prop oldInfo name) (prop newInfo name)
  then [mkChange name (prop oldInfo name) (prop newInfo name) "content_change"]
  else [].

(** The page has a change to the field [name]. *)
Definition hasChangeTo (name : string) (p : Differences) : Prop :=
  exists c, In c (changes p) /\ field c = name.

(** The member of [seoImpact] that counts the pages with a change to the
    field [name], when there is one. *)
Definition fieldImpact (r : Results) (name : string) : option nat :=
  if String.eqb name "title" then Some (pagesWithTitleChanges (seoImpact r))
  else if String.eqb name "description" then Some (pagesWithDescriptionChanges (seoImpact r))
  else if String.eqb name "canonical" then Some (pagesWithCanonicalChanges (seoImpact r))
  else None.

(** A triple for [Crawl]: from a session in [Pre], every session the
    computation goes through is in [Inv], and the session it ends in, with
    its result, is in [Post]. *)
Definition triple {R A : Type} (Pre : Session R -> Prop) (m : Crawl R A)
    (Inv : Session R -> Prop) (Post : A -> Session R -> Prop) : Prop :=
  forall s, Pre s ->
    Forall Inv (fst (m s)) /\
    forall a s', snd (m s) = Some (a, s') -> Post a s'.

(** The computation ends in the last session it went through. *)
Definition endsInLast {R A : Type} (m : Crawl R A) : Prop :=
  forall s a s', snd (m s) = Some (a, s') -> List.last (fst (m s)) s = s'.


(** Every visited URL starts with [baseUrl]. *)
Definition inScope {R : Type} (baseUrl : string) (s : Session R) : Prop :=
  forall u, In u (visitedUrls s) -> JS.startsWith u baseUrl = true.

(** Between two calls of [crawlPage], [pageCount] is the number of visited
    URLs and is within the budget. *)
Definition counted {R : Type} (m : nat) (s : Session R) : Prop :=
  List.length (visitedUrls s) = pageCount s /\ pageCount s <= m.

Definition withinBudget {R : Type} (m : nat) (s : Session R) : Prop :=
  List.length (visitedUrls s) <= m.

(** The session after the head of a page and the calls on puppeteer: the
    one a page leaves whose load failed. *)
Definition failedVisit {R : Type} (url : string) (r' : R) (s : Session R) : Session R :=
  mkSession (allUrls s) (JS.add (visitedUrls s) url) (htmlSnapshots s)
    (S (pageCount s)) r'.


(** ** Two small sites *)

Module Scenario.

Definition oldSite : string := "http://o".
Definition newSite : string := "http://n".

(** The old site links from its home page to [/a-b], to [/broken], which
    does not load, to [/a_b], to another host and to [/a-b] again; the new
    site links to [/a_b] and then to [/a-b].  [/a-b] and [/a_b] are the same
    on both.  No page changes a built-in, and the error of the page that
    does not load has a message. *)
Definition render (r : unit) (url : string) : unit * Outcome :=
  if String.eqb url "http://o" then
    (r, Rendered "<title>Home</title>"
          (pageUrlsOf "http://o"
             ["http://o/a-b"; "http://o/broken"; "http://o/a_b"; "http://x/ext";
              "http://o/a-b"]))
  else if String.eqb url "http://o/a-b" then (r, Rendered "<title>Dash</title>" [])
  else if String.eqb url "http://o/a_b" then (r, Rendered "<title>Underscore</title>" [])
  else if String.eqb url "http://n" then
    (r, Rendered "<title>Home</title>"
          (pageUrlsOf "http://n" ["http://n/a_b"; "http://n/a-b"]))
  else if String.eqb url "http://n/a-b" then (r, Rendered "<title>Dash</title>" [])
  else if String.eqb url "http://n/a_b" then (r, Rendered "<title>Underscore</title>" [])
  else (r, NavFail true).

(** The document of [<title>t</title>]. *)
Definition titlePage (t : string) : Dom.Document :=
  Dom.mkDocument t
    [ Dom.mkElement "html" [] t; Dom.mkElement "head" [] t;
      Dom.mkElement "title" [] t; Dom.mkElement "body" [] "" ].

(** The snapshots of the two sites, parsed; no snapshot has a script. *)
Definition setContent (r : unit) (html : string) : unit * Extraction :=
  if String.eqb html "<title>Home</title>" then (r, Intact (titlePage "Home"))
  else if String.eqb html "<title>Dash</title>" then (r, Intact (titlePage "Dash"))
  else if String.eqb html "<title>Underscore</title>"
  then (r, Intact (titlePage "Underscore"))
  else (r, Faulted true).

(** The document of [<meta name='description'>]: its [meta] element for the
    description has no [content]. *)
Definition bareMeta : Dom.Document :=
  Dom.mkDocument ""
    [ Dom.mkElement "html" [] ""; Dom.mkElement "head" [] "";
      Dom.mkElement "meta" [("name", "description")] "";
      Dom.mkElement "body" [] "" ].

Definition loadBareMeta (r : unit) (html : string) : unit * Extraction :=
  if String.eqb html "<meta name='description'>" then (r, Intact bareMeta)
  else (r, Faulted true).

(** Every call throws an error with a message. *)
Definition faulty (r : unit) (html : string) : unit * Extraction := (r, Faulted true).

(** Every call is rejected with [null]. *)
Definition rejected (r : unit) (html : string) : unit * Extraction := (r, Faulted false).

(** A snapshot with a [meta] element for the description, whose script makes
    [getAttribute] return [undefined]: the record comes back without
    [description]. *)
Definition alteredHtml : string :=
  "<script>Element.prototype.getAttribute = () => undefined</script><meta name='description'>".

Definition altered (r : unit) (html : string) : unit * Extraction :=
  if String.eqb html alteredHtml then
    (r, Altered
          [ ("title", JS.Str ""); ("keywords", JS.Str ""); ("h1", JS.Str "");
            ("h2", JS.Str ""); ("mainContent", JS.Str ""); ("canonical", JS.Str "");
            ("robots", JS.Str ""); ("ogTitle", JS.Str ""); ("ogDescription", JS.Str "");
            ("ogImage", JS.Str ""); ("twitterCard", JS.Str ""); ("twitterTitle", JS.Str "");
            ("twitterDescription", JS.Str "") ])
  else (r, Faulted true).

(** Two crawls with one page in common, whose keywords differ. *)
Definition oldKeywords : CrawlData :=
  mkCrawlData ["http://o/p"] {[ "http___o_p" := "<meta name='keywords' content='old'>" ]}.
Definition newKeywords : CrawlData :=
  mkCrawlData ["http://n/p"] {[ "http___n_p" := "<meta name='keywords' content='new'>" ]}.

(** The document of [<meta name='keywords' content='k'>]. *)
Definition keywordsPage (k : string) : Dom.Document :=
  Dom.mkDocument ""
    [ Dom.mkElement "html" [] ""; Dom.mkElement "head" [] "";
      Dom.mkElement "meta" [("name", "keywords"); ("content", k)] "";
      Dom.mkElement "body" [] "" ].

Definition loadKeywords (r : unit) (html : string) : unit * Extraction :=
  if String.eqb html "<meta name='keywords' content='old'>"
  then (r, Intact (keywordsPage "old"))
  else if String.eqb html "<meta name='keywords' content='new'>"
  then (r, Intact (keywordsPage "new"))
  else (r, Faulted true).

(** Two crawls with one page in common, the same on both sides. *)
Definition oldSame : CrawlData :=
  mkCrawlData ["http://o/p"] {[ "http___o_p" := "<title>Home</title>" ]}.
Definition newSame : CrawlData :=
  mkCrawlData ["http://n/p"] {[ "http___n_p" := "<title>Home</title>" ]}.

Definition keywordsReport : Results :=
  fst (report (awaited (MigrationComparator.extractPageInfo loadKeywords))
         MigrationComparator.comparePageInfo oldSite newSite "t" ("testDuration", "0ms")
         oldKeywords newKeywords (Some tt)).

End Scenario.

From Stdlib Require Import DecimalString.

(** ** Further notions on crawl sessions *)

(** Every discovered URL starts with [baseUrl]. *)
Definition scopedUrls {R : Type} (baseUrl : string) (s : Session R) : Prop :=
  forall u, In u (allUrls s) -> JS.startsWith u baseUrl = true.

(** Neither set of the session holds a URL twice. *)
Definition distinctUrls {R : Type} (s : Session R) : Prop :=
  List.NoDup (visitedUrls s) /\ List.NoDup (allUrls s).

(** Every snapshot is stored under the key of a visited URL. *)
Definition keysVisited {R : Type} (s : Session R) : Prop :=
  forall k, is_Some (htmlSnapshots s !! k) ->
            exists u, In u (visitedUrls s) /\ JS.sanitize u = k.

(** Every discovered URL that starts with [baseUrl] is visited or is one of
    [pending]. *)
Definition explored {R : Type} (baseUrl : string) (pending : list string)
    (s : Session R) : Prop :=
  forall u, In u (allUrls s) -> JS.startsWith u baseUrl = true ->
            In u (visitedUrls s) \/ In u pending.

(** The rendering session never fails in [browser.close()] inside
    [crawlPage]: [MigrationComparator.crawlPage] has no such call. *)
Definition neverCloseFail {R : Type} (render : R -> string -> R * Outcome) : Prop :=
  forall r u html pageUrls caught, snd (render r u) <> CloseFail html pageUrls caught.

(** The [catch] block of [crawlPage] ends whenever it runs: no promise is
    rejected with a value whose message it cannot read. *)
Definition failuresCaught {R : Type} (render : R -> string -> R * Outcome) : Prop :=
  forall r u,
    match snd (render r u) with
    | NavFail caught | LinksFail _ caught | CloseFail _ _ caught => caught = true
    | Rendered _ _ => True
    end.

(** The array that [page.evaluate] brought back, if it did. *)
Definition evaluatedLinks (o : Outcome) : list string :=
  match o with
  | CloseFail _ pageUrls _ | Rendered _ pageUrls => pageUrls
  | NavFail _ | LinksFail _ _ => []
  end.

(** On every page of the site, the callback of [page.evaluate] runs as it is
    written: no page changes the built-ins it uses. *)
Definition callbackIntact {R : Type} (render : R -> string -> R * Outcome)
    (baseUrl : string) : Prop :=
  forall r u, JS.startsWith u baseUrl = true ->
    exists hrefs, evaluatedLinks (snd (render r u)) = pageUrlsOf baseUrl hrefs.



(** ** Further notions on records and documents *)

Definition firstChar (s : string) : option ascii :=
  match s with
  | EmptyString => None
  | String c _ => Some c
  end.

Fixpoint lastChar (s : string) : option ascii :=
  match s with
  | EmptyString => None
  | String c EmptyString => Some c
  | String _ s' => lastChar s'
  end.

(** No white space at either end. *)
Definition trimmed (s : string) : Prop :=
  (forall c, firstChar s = Some c -> JS.isSpace c = false)
  /\ (forall c, lastChar s = Some c -> JS.isSpace c = false).

(** ** The command line: [parseArguments] and the check of the options

    [args] is [process.argv.slice(2)].  There are two versions of
    [parseArguments]: the one at the end of each class file and the one of
    the driver [index.js], which also knows flags without a value. *)

(** What an option holds: [true], a string, or [undefined]. *)
Inductive OptionValue : Type :=
| Flag
| Text (s : string)
| NoValue.

(** [s.split(sep)] for a separator of one character. *)
Fixpoint split (sep : ascii) (s : string) : list string :=
  match s with
  | EmptyString => [EmptyString]
  | String c s' =>
      if Ascii.eqb c sep then EmptyString :: split sep s'
      else match split sep s' with
           | piece :: pieces => String c piece :: pieces
           | [] => [String c EmptyString]
           end
  end.

(** [s.includes(c)] for one character. *)
Fixpoint includesChar (s : string) (c : ascii) : bool :=
  match s with
  | EmptyString => false
  | String a s' => Ascii.eqb a c || includesChar s' c
  end.

(** [const [key, value] = pieces] *)
Definition keyOf (pieces : list string) : string := List.hd EmptyString pieces.

Definition valueOf (pieces : list string) : OptionValue :=
  match pieces with
  | _ :: value :: _ => Text value
  | _ => NoValue
  end.

(** [options[key] = value] on an object literal: an assignment to
    [__proto__] of a value that is not an object changes nothing. *)
Definition assign (options : gmap string OptionValue) (key : string) (value : OptionValue)
    : gmap string OptionValue :=
  if String.eqb key "__proto__" then options else <[key := value]> options.

(** An option used as a condition. *)
Definition isSet (o : option OptionValue) : bool :=
  match o with
  | Some Flag => true
  | Some (Text s) => JS.truthy s
  | Some NoValue | None => false
  end.

(** [value && !value.startsWith('-')], for the argument after a short
    option, [undefined] after the last. *)
Definition takesValue (next : list string) : bool :=
  match next with
  | value :: _ => JS.truthy value && negb (JS.startsWith value "-")
  | [] => false
  end.

(** The text of a long option's value that reaches the options. *)
Definition firstPiece (v : string) : string := keyOf (split "=" v).

Module ClassMain.

(** The loop of [parseArguments] in the two class files, from [args[i]] on. *)
Fixpoint parseLoop (args : list string) (options : gmap string OptionValue)
    : gmap string OptionValue :=
  match args with
  | [] => options
  | arg :: rest =>
      if JS.startsWith arg "--" then
        let pieces := split "=" (JS.slice 2 arg) in
        parseLoop rest (assign options (keyOf pieces) (valueOf pieces))
      else if JS.startsWith arg "-" then
        let key := JS.slice 1 arg in
        match rest with
        | value :: rest' =>
            if takesValue rest
            then parseLoop rest' (assign options key (Text value))
            else parseLoop rest options
        | [] => options
        end
      else parseLoop rest options
  end.

Definition parseArguments (args : list string) : gmap string OptionValue :=
  parseLoop args ∅.

(** The check before the comparator is built: [None] is the usage text and
    exit code 1, [Some (old, new)] the two arguments of the constructor. *)
Definition main (args : list string) : option (OptionValue * OptionValue) :=
  let options := parseArguments args in
  if negb (isSet (options !! "old")) || negb (isSet (options !! "new")) then None
  else Some (default NoValue (options !! "old"), default NoValue (options !! "new")).

End ClassMain.

Module Driver.

(** The loop of [parseArguments] in [index.js]. *)
Fixpoint parseLoop (args : list string) (options : gmap string OptionValue)
    : gmap string OptionValue :=
  match args with
  | [] => options
  | arg :: rest =>
      if JS.startsWith arg "--" then
        if includesChar arg "=" then
          let pieces := split "=" (JS.slice 2 arg) in
          parseLoop rest (assign options (keyOf pieces) (valueOf pieces))
        else
          parseLoop rest (assign options (JS.slice 2 arg) Flag)
      else if JS.startsWith arg "-" then
        let key := JS.slice 1 arg in
        match rest with
        | value :: rest' =>
            if takesValue rest
            then parseLoop rest' (assign options key (Text value))
            else parseLoop rest (assign options key Flag)
        | [] => assign options key Flag
        end
      else parseLoop rest options
  end.

Definition parseArguments (args : list string) : gmap string OptionValue :=
  parseLoop args ∅.

(** The main block: [None] is the usage text and exit code 1;
    [Some (quick, old, new)] is the script chosen, [src/quick.js] when
    [quick], and the two arguments of its constructor. *)
Definition main (args : list string) : option (bool * OptionValue * OptionValue) :=
  let options := parseArguments args in
  if negb (isSet (options !! "old")) || negb (isSet (options !! "new")) then None
  else Some (isSet (options !! "quick"),
             default NoValue (options !! "old"), default NoValue (options !! "new")).

End Driver.

(** ** The text of one change in [generateHumanReadableReport] *)

Definition newline : string := String (ascii_of_nat 10) EmptyString.

(** [`${n}`] for a natural number. *)
Definition decimal (n : nat) : string := NilEmpty.string_of_uint (Nat.to_uint n).

(** [`${v || '(empty)'}`] *)
Definition orEmpty (v : JS.value) : string :=
  match v with
  | JS.Str s => if JS.truthy s then s else "(empty)"
  | JS.Null | JS.Undefined => "(empty)"
  end.

(** The callback of [page.changes.map]. *)
Definition changeText (change : Change) (changeIndex : nat) : string :=
  "### " +:+ decimal (changeIndex + 1) +:+ ". " +:+ field change +:+ newline +:+ newline
  +:+ "**Old Value:** " +:+ orEmpty (old change) +:+ newline
  +:+ "**New Value:** " +:+ orEmpty (new change).

(** ** Pages that fail *)

Module Faults.

(** Every page gives its HTML, and [page.evaluate] throws an error with a
    message. *)
Definition render (r : unit) (url : string) : unit * Outcome :=
  (r, LinksFail "<title>Home</title>" true).

(** The home page links to [/a] and to [/b]; the load of [/a] is rejected
    with [null]. *)
Definition nullRejection (r : unit) (url : string) : unit * Outcome :=
  if String.eqb url "http://o" then
    (r, Rendered "<title>Home</title>" ["http://o/a"; "http://o/b"])
  else if String.eqb url "http://o/a" then (r, NavFail false)
  else (r, Rendered "<title>B</title>" []).

(** The home page brings back a link to another host. *)
Definition foreignLink (r : unit) (url : string) : unit * Outcome :=
  (r, Rendered "<title>Home</title>" ["http://x/ext"]).

End Faults.

(** * Properties *)

(** ** The primitives on small inputs *)

Example replace_first_only :
  JS.replace "http://a/http://a/x" "http://a" "http://b" = "http://b/http://a/x".
Proof. reflexivity. Qed.

Example replace_absent : JS.replace "http://c/x" "http://a" "http://b" = "http://c/x".
Proof. reflexivity. Qed.

Example replace_matched_pattern :
  JS.replace "http://a/x" "http://a" "[$&|$'|$1]" = "[http://a|/x|$1]/x".
Proof. reflexivity. Qed.

Example trim_both : JS.trim "  a b  " = "a b".
Proof. reflexivity. Qed.

Example sanitize_url : JS.sanitize "https://a.com/x-y?q=1" = "https___a_com_x_y_q_1".
Proof. reflexivity. Qed.

Example unique_keeps_first : unique ["b"; "a"; "b"; "c"; "a"] = ["b"; "a"; "c"].
Proof. reflexivity. Qed.

Example crawl_old_site :
  option_map (fun d => urls (fst d))
    (MigrationComparator.crawlWebsite Scenario.render "http://o" 2 tt)
  = Some ["http://o/a-b"; "http://o/broken"; "http://o/a_b"].
Proof. vm_compute. reflexivity. Qed.

Example crawl_old_site_out_of_fuel :
  MigrationComparator.crawlWebsite Scenario.render "http://o" 1 tt = None.
Proof. vm_compute. reflexivity. Qed.

Example crawl_old_site_two_pages :
  option_map (fun s => visitedUrls (snd s))
    (snd (crawlRun Scenario.render "http://o" (Some 2) 3 tt))
  = Some ["http://o"; "http://o/a-b"].
Proof. vm_compute. reflexivity. Qed.

(** ** The URL rewrite of the reconciliation *)

Section Strings.

Lemma append_cons (a : ascii) (p s : string) : String a p +:+ s = String a (p +:+ s).
Proof. reflexivity. Qed.

Lemma startsWith_app (p s : string) : JS.startsWith (p +:+ s) p = true.
Proof.
  induction p as [|a p IH]; [reflexivity|].
  rewrite append_cons. simpl. now rewrite Ascii.eqb_refl.
Qed.






End Strings.

(** C1, at the input where the code departs from it: the new domain
    [https://new.example/$$] holds the replacement pattern [$$], which
    [String.prototype.replace] turns into one [$], so the rewrite of
    [https://old.example/about] is [https://new.example/$/about] and not
    [https://new.example/$$/about]. *)
Theorem C1_rewrite_expands_dollar_patterns :
  convert "https://old.example" "https://new.example/$$" ("https://old.example" +:+ "/about")
  = "https://new.example/$/about"
  /\ convert "https://old.example" "https://new.example/$$" ("https://old.example" +:+ "/about")
     <> "https://new.example/$$" +:+ "/about".
Proof. split; [reflexivity | discriminate]. Qed.

(** ** The field differ *)

Section Differ.

Lemma strictNe_sym (a b : JS.value) : JS.strictNe a b = JS.strictNe b a.
Proof.
  destruct a, b; simpl; try reflexivity.
  now rewrite String.eqb_sym.
Qed.

Lemma strictNe_refl (a : JS.value) : JS.strictNe a a = false.
Proof. destruct a; simpl; try reflexivity. now rewrite String.eqb_refl. Qed.

Lemma compareField_changes (name : string) (o n : JS.value) (d : Differences) :
  changes (compareField name o n d)
  = changes d ++ (if JS.strictNe o n then [mkChange name o n "content_change"] else []).
Proof.
  unfold compareField. destruct (JS.strictNe o n); simpl; [reflexivity|].
  now rewrite app_nil_r.
Qed.

Lemma compareField_url (name : string) (o n : JS.value) (d : Differences) :
  url (compareField name o n d) = url d.
Proof. unfold compareField. now destruct (JS.strictNe o n). Qed.

Lemma swap_swap (c : Change) : swap (swap c) = c.
Proof. now destruct c. Qed.

Lemma fieldChange_swap (A B : PageInfo) (name : string) :
  fieldChange B A name = List.map swap (fieldChange A B name).
Proof.
  unfold fieldChange. rewrite (strictNe_sym (prop B name)).
  now destruct (JS.strictNe (prop A name) (prop B name)).
Qed.

Lemma fieldChange_same (A : PageInfo) (name : string) : fieldChange A A name = [].
Proof. unfold fieldChange. now rewrite strictNe_refl. Qed.

Lemma flat_map_fieldChange_swap (A B : PageInfo) (names : list string) :
  flat_map (fieldChange B A) names = List.map swap (flat_map (fieldChange A B) names).
Proof.
  induction names as [|name names IH]; simpl; [reflexivity|].
  now rewrite List.map_app, <- IH, fieldChange_swap.
Qed.

Lemma flat_map_fieldChange_same (A : PageInfo) (names : list string) :
  flat_map (fieldChange A A) names = [].
Proof.
  induction names as [|name names IH]; simpl; [reflexivity|].
  now rewrite fieldChange_same.
Qed.

(** The change list is the list of the changed fields, in the order of the
    calls of [compareField]. *)
Lemma full_changes (A B : PageInfo) (u : string) :
  changes (MigrationComparator.comparePageInfo A B u)
  = flat_map (fieldChange A B) MigrationComparator.comparedFields.
Proof.
  unfold MigrationComparator.comparePageInfo. cbv zeta.
  rewrite !compareField_changes. simpl. unfold fieldChange.
  rewrite <- !app_assoc, ?app_nil_r. reflexivity.
Qed.

Lemma simple_changes (A B : PageInfo) (u : string) :
  changes (SimpleMigrationComparator.comparePageInfo A B u)
  = flat_map (fieldChange A B) SimpleMigrationComparator.comparedFields.
Proof.
  unfold SimpleMigrationComparator.comparePageInfo. cbv zeta.
  rewrite !compareField_changes. simpl. unfold fieldChange.
  rewrite <- !app_assoc, ?app_nil_r. reflexivity.
Qed.

Lemma full_url (A B : PageInfo) (u : string) :
  url (MigrationComparator.comparePageInfo A B u) = u.
Proof.
  unfold MigrationComparator.comparePageInfo. cbv zeta.
  now rewrite !compareField_url.
Qed.

Lemma swapped_lists (ab ba : list Change) :
  ba = List.map swap ab ->
  List.length ba = List.length ab
  /\ List.map field ba = List.map field ab
  /\ (forall c, In c ab <-> In (swap c) ba).
Proof.
  intros ->. split; [apply List.length_map|]. split.
  - rewrite List.map_map. reflexivity.
  - intros c. split.
    + apply List.in_map.
    + intros H. apply List.in_map_iff in H as [c' [Heq Hin]].
      assert (c' = c) as <-; [|exact Hin].
      rewrite <- (swap_swap c'), Heq. apply swap_swap.
Qed.

(** The same for the differ of [SimpleMigrationComparator]. *)
Lemma simple_comparePageInfo_swap (A B : PageInfo) (u : string) :
  changes (SimpleMigrationComparator.comparePageInfo B A u)
  = List.map swap (changes (SimpleMigrationComparator.comparePageInfo A B u)).
Proof. rewrite !simple_changes. apply flat_map_fieldChange_swap. Qed.

Lemma full_comparePageInfo_same (A : PageInfo) (u : string) :
  changes (MigrationComparator.comparePageInfo A A u) = [].
Proof. rewrite full_changes. apply flat_map_fieldChange_same. Qed.

Lemma simple_comparePageInfo_same (A : PageInfo) (u : string) :
  changes (SimpleMigrationComparator.comparePageInfo A A u) = [].
Proof. rewrite simple_changes. apply flat_map_fieldChange_same. Qed.

End Differ.

(** C7: [comparePageInfo] is symmetric under the swap of its two records.
    For all records [A] and [B] and every [u], the change list of
    [comparePageInfo(B, A, u)] is the change list of
    [comparePageInfo(A, B, u)] with [old] and [new] exchanged in every
    change: the two lists have the same length and the same fields in the
    same order, and a change is in one exactly when its swap is in the
    other.  Both results carry the same [url]. *)
Theorem C7_comparePageInfo_swap (A B : PageInfo) (u : string) :
  let ab := changes (MigrationComparator.comparePageInfo A B u) in
  let ba := changes (MigrationComparator.comparePageInfo B A u) in
  ba = List.map swap ab
  /\ List.length ba = List.length ab
  /\ List.map field ba = List.map field ab
  /\ (forall c, In c ab <-> In (swap c) ba)
  /\ url (MigrationComparator.comparePageInfo B A u)
     = url (MigrationComparator.comparePageInfo A B u).
Proof.
  cbv zeta.
  assert (changes (MigrationComparator.comparePageInfo B A u)
          = List.map swap (changes (MigrationComparator.comparePageInfo A B u))) as Hswap.
  { rewrite !full_changes. apply flat_map_fieldChange_swap. }
  split; [exact Hswap|].
  destruct (swapped_lists _ _ Hswap) as (Hlen & Hfields & Hin).
  repeat split; try assumption; try apply Hin.
  now rewrite !full_url.
Qed.

(** ** The field extractor *)

Section Extractor.
Context {R : Type}.
Variable setContent : R -> string -> R * Extraction.

(** The keys of the record of a page do not depend on the page, when the
    callback runs as it is written or the [catch] block gives the record. *)
Lemma full_keys (r r' : R) (html : string) :
  (exists d, setContent r html = (r', Intact d)) \/ setContent r html = (r', Faulted true) ->
  exists record,
    MigrationComparator.extractPageInfo setContent r html = (r', Some record)
    /\ keys record
       = [ "title"; "description"; "keywords"; "h1"; "h2"; "mainContent"; "canonical";
           "robots"; "ogTitle"; "ogDescription"; "ogImage"; "twitterCard"; "twitterTitle";
           "twitterDescription" ].
Proof.
  unfold MigrationComparator.extractPageInfo.
  intros [[d ->]| ->]; eexists; split; reflexivity.
Qed.

Lemma simple_keys (r r' : R) (html : string) :
  (exists d, setContent r html = (r', Intact d)) \/ setContent r html = (r', Faulted true) ->
  exists record,
    SimpleMigrationComparator.extractPageInfo setContent r html = (r', Some record)
    /\ keys record = SimpleMigrationComparator.comparedFields.
Proof.
  unfold SimpleMigrationComparator.extractPageInfo.
  intros [[d ->]| ->]; eexists; split; reflexivity.
Qed.

(** On a fault whose error has a message the record of the [catch] branch
    is returned: every field is the empty string. *)
Lemma full_fault_all_empty (r r' : R) (html : string) :
  setContent r html = (r', Faulted true) ->
  exists record,
    MigrationComparator.extractPageInfo setContent r html = (r', Some record)
    /\ Forall (fun kv => snd kv = JS.Str "") record.
Proof.
  intros H. unfold MigrationComparator.extractPageInfo. rewrite H.
  eexists. split; [reflexivity|]. repeat constructor.
Qed.

Lemma simple_fault_all_empty (r r' : R) (html : string) :
  setContent r html = (r', Faulted true) ->
  exists record,
    SimpleMigrationComparator.extractPageInfo setContent r html = (r', Some record)
    /\ Forall (fun kv => snd kv = JS.Str "") record.
Proof.
  intros H. unfold SimpleMigrationComparator.extractPageInfo. rewrite H.
  eexists. split; [reflexivity|]. repeat constructor.
Qed.

(** A rejection with [null] or [undefined] is not caught: the [catch] block
    throws, and the promise of [extractPageInfo] is rejected. *)
Lemma full_fault_rejected (r r' : R) (html : string) :
  setContent r html = (r', Faulted false) ->
  MigrationComparator.extractPageInfo setContent r html = (r', None).
Proof. intros H. unfold MigrationComparator.extractPageInfo. now rewrite H. Qed.

Lemma simple_fault_rejected (r r' : R) (html : string) :
  setContent r html = (r', Faulted false) ->
  SimpleMigrationComparator.extractPageInfo setContent r html = (r', None).
Proof. intros H. unfold SimpleMigrationComparator.extractPageInfo. now rewrite H. Qed.

(** A field whose element is absent is the empty string. *)
Lemma getMetaContent_no_tag (d : Dom.Document) (name : string) :
  Dom.queryMeta d name = None -> Dom.getMetaContent d name = JS.Str "".
Proof. unfold Dom.getMetaContent. now intros ->. Qed.

Lemma getTextContent_no_tag (d : Dom.Document) (selector : string) :
  Dom.queryType d selector = None -> Dom.getTextContent d selector = "".
Proof. unfold Dom.getTextContent. now intros ->. Qed.

(** A [meta] element that is found and has no [content] gives [null]. *)
Lemma getMetaContent_no_content (d : Dom.Document) (name : string) (meta : Dom.Element) :
  Dom.queryMeta d name = Some meta ->
  Dom.attribute (Dom.attributes meta) "content" = None ->
  Dom.getMetaContent d name = JS.Null.
Proof.
  unfold Dom.getMetaContent, Dom.getAttribute. now intros -> ->.
Qed.

End Extractor.

(** A record that came back from a page with changed built-ins: it has 13
    fields, and [description], which the differ reads, is not one of them. *)
Example altered_record_lacks_description :
  exists record,
    snd (MigrationComparator.extractPageInfo Scenario.altered tt Scenario.alteredHtml)
    = Some record
    /\ List.length (keys record) = 13
    /\ ~ In "description" (keys record)
    /\ prop record "description" = JS.Undefined.
Proof.
  eexists. split; [reflexivity|]. split; [reflexivity|]. split; [|reflexivity].
  simpl. intros H. repeat (destruct H as [H|H]; [discriminate|]). exact H.
Qed.

(** C4, at the input where the code departs from it: for the page
    [<meta name='description'>], whose [meta] element has no [content]
    attribute, [extractPageInfo] of both classes returns a record whose
    [description] is [null] and not the empty string. *)
Theorem C4_missing_content_attribute_is_null :
  exists full simple,
    snd (MigrationComparator.extractPageInfo Scenario.loadBareMeta tt
           "<meta name='description'>") = Some full
    /\ prop full "description" = JS.Null
    /\ snd (SimpleMigrationComparator.extractPageInfo Scenario.loadBareMeta tt
              "<meta name='description'>") = Some simple
    /\ prop simple "description" = JS.Null
    /\ JS.strictNe JS.Null (JS.Str "") = true.
Proof. eexists _, _. repeat split. Qed.

(** C5 as stated fails for [MigrationComparator]: the record it extracts
    from a page with its built-ins intact has 14 keys where the differ
    compares 13 fields; [mainContent] is extracted and never compared. *)
Lemma C5_record_has_an_extra_field :
  exists record,
    snd (MigrationComparator.extractPageInfo Scenario.loadBareMeta tt
           "<meta name='description'>") = Some record
    /\ ~ (List.length (keys record) = List.length MigrationComparator.comparedFields
          /\ forall k, In k (keys record) <-> In k MigrationComparator.comparedFields).
Proof.
  eexists. split; [reflexivity|]. intros [H _]. vm_compute in H. discriminate.
Qed.

(** C5, amended.  When the callback of [tempPage.evaluate] runs as it is
    written (the scripts of the snapshot leave alone the built-ins it uses),
    and when a call throws an error whose message the [catch] block can
    read, the record that [MigrationComparator.extractPageInfo] returns has
    the same 14 keys, which are the 13 compared fields and [mainContent],
    and the record that [SimpleMigrationComparator.extractPageInfo] returns
    has exactly the 9 compared fields of that class as its keys.  When the
    callback ran with built-ins that the snapshot changed, the record is the
    object that came back from the page, whatever its keys. *)
Theorem C5_record_keys (R : Type) (setContent : R -> string -> R * Extraction)
    (r r' : R) (html : string) :
  ((exists d, setContent r html = (r', Intact d))
   \/ setContent r html = (r', Faulted true) ->
   exists full simple,
     MigrationComparator.extractPageInfo setContent r html = (r', Some full)
     /\ SimpleMigrationComparator.extractPageInfo setContent r html = (r', Some simple)
     /\ List.length (keys full) = 14
     /\ List.filter (fun k => negb (String.eqb k "mainContent")) (keys full)
        = MigrationComparator.comparedFields
     /\ In "mainContent" (keys full)
     /\ ~ In "mainContent" MigrationComparator.comparedFields
     /\ keys simple = SimpleMigrationComparator.comparedFields
     /\ List.length (keys simple) = 9)
  /\ (forall pageInfo,
        setContent r html = (r', Altered pageInfo) ->
        MigrationComparator.extractPageInfo setContent r html = (r', Some pageInfo)
        /\ SimpleMigrationComparator.extractPageInfo setContent r html
           = (r', Some pageInfo)).
Proof.
  split.
  - intros H.
    destruct (full_keys setContent r r' html H) as (full & Ef & Kf).
    destruct (simple_keys setContent r r' html H) as (simple & Es & Ks).
    exists full, simple. rewrite Kf, Ks.
    repeat split; try assumption; try reflexivity.
    + simpl. tauto.
    + simpl. intros H'. repeat (destruct H' as [H'|H']; [discriminate|]). exact H'.
  - intros pageInfo H.
    unfold MigrationComparator.extractPageInfo, SimpleMigrationComparator.extractPageInfo.
    rewrite H. now split.
Qed.

Lemma C5_record_keys_witness :
  exists full simple,
    MigrationComparator.extractPageInfo Scenario.loadBareMeta tt "<meta name='description'>"
    = (tt, Some full)
    /\ SimpleMigrationComparator.extractPageInfo Scenario.loadBareMeta tt
         "<meta name='description'>" = (tt, Some simple)
    /\ List.length (keys full) = 14
    /\ List.filter (fun k => negb (String.eqb k "mainContent")) (keys full)
       = MigrationComparator.comparedFields
    /\ In "mainContent" (keys full)
    /\ ~ In "mainContent" MigrationComparator.comparedFields
    /\ keys simple = SimpleMigrationComparator.comparedFields
    /\ List.length (keys simple) = 9.
Proof.
  apply (proj1 (C5_record_keys unit Scenario.loadBareMeta tt tt "<meta name='description'>")).
  left. exists Scenario.bareMeta. reflexivity.
Defined.

(** ** The report *)

Section Report.
Context {R : Type}.
Variable extractPageInfo : R -> string -> R * PageInfo.
Variable comparePageInfo : PageInfo -> PageInfo -> string -> Differences.
Variables oldDomain newDomain timestamp : string.
Variable testTag : string * string.
Variables oldData newData : CrawlData.

Local Abbreviation body :=
  (comparePair extractPageInfo comparePageInfo oldDomain newDomain oldData newData).
Local Abbreviation loop :=
  (fold_left (fun st oldUrl => body oldUrl st)).

(** One turn of the loop leaves [pageComparisons] as it is or pushes one
    result, which has a change. *)
Lemma comparePair_push (oldUrl : string) (st : R * list Differences) :
  snd (body oldUrl st) = snd st
  \/ exists p, snd (body oldUrl st) = snd st ++ [p] /\ changes p <> [].
Proof.
  unfold comparePair.
  destruct (present _ && present _); [|now left].
  destruct (extractPageInfo (fst st) _) as [r1 oldInfo].
  destruct (extractPageInfo r1 _) as [r2 newInfo].
  destruct (changes (comparePageInfo oldInfo newInfo _)) as [|c cs] eqn:E; simpl.
  - now left.
  - right. eexists. split; [reflexivity|]. rewrite E. discriminate.
Qed.

Lemma loop_all_changed (commonUrls : list string) (st : R * list Differences) :
  Forall (fun p => changes p <> []) (snd st) ->
  Forall (fun p => changes p <> []) (snd (loop commonUrls st)).
Proof.
  revert st. induction commonUrls as [|u us IH]; intros st H; simpl; [exact H|].
  apply IH.
  destruct (comparePair_push u st) as [-> | (p & -> & Hp)]; [exact H|].
  apply Forall_app. split; [exact H|]. now constructor.
Qed.

(** The members of the report, read off [report]. *)
Lemma report_members (r : R) :
  let res := fst (report extractPageInfo comparePageInfo oldDomain newDomain
                    timestamp testTag oldData newData r) in
  let converted := List.map (convert oldDomain newDomain) (urls oldData) in
  missingUrls res
  = List.filter (fun u => negb (JS.includes (urls newData) u)) converted
  /\ newUrls res
     = List.filter (fun u => negb (JS.includes converted u)) (urls newData)
  /\ pageComparisons res
     = snd (loop (List.filter
                    (fun u => JS.includes (urls newData) (convert oldDomain newDomain u))
                    (urls oldData)) (r, []))
  /\ summary res
     = Summary.mk (List.length (urls oldData)) (List.length (urls newData))
         (List.length (missingUrls res)) (List.length (newUrls res))
         (List.length (pageComparisons res))
  /\ seoImpact res
     = mkSeoImpact
         (List.length (List.filter (changesField "title") (pageComparisons res)))
         (List.length (List.filter (changesField "description") (pageComparisons res)))
         (List.length (List.filter (changesField "canonical") (pageComparisons res))).
Proof.
  cbv zeta. unfold report.
  destruct (fold_left _ _ _) as [r' pcs]. simpl. repeat split.
Qed.

End Report.

Lemma changesField_spec (name : string) (p : Differences) :
  changesField name p = true <-> hasChangeTo name p.
Proof.
  unfold changesField, hasChangeTo. rewrite List.existsb_exists.
  split; intros (c & Hin & Hc); exists c; split; try assumption.
  - now apply String.eqb_eq.
  - now apply String.eqb_eq.
Qed.

(** C6 as stated fails: in the report of two crawls whose one common page
    is [<meta name='keywords' content='old'>] on the old site and
    [<meta name='keywords' content='new'>] on the new one, [keywords] is a
    compared field changed on one page, and the report has no count for it:
    [seoImpact] has three members, all 0. *)
Lemma C6_no_count_for_keywords :
  ~ (forall name, In name MigrationComparator.comparedFields ->
       fieldImpact Scenario.keywordsReport name
       = Some (List.length (List.filter (changesField name)
                              (pageComparisons Scenario.keywordsReport))))
  /\ List.length (List.filter (changesField "keywords")
                    (pageComparisons Scenario.keywordsReport)) = 1
  /\ seoImpact Scenario.keywordsReport = mkSeoImpact 0 0 0.
Proof.
  split; [|split; reflexivity].
  intros H. specialize (H "keywords").
  assert (In "keywords" MigrationComparator.comparedFields) as Hin by (simpl; tauto).
  specialize (H Hin). vm_compute in H. discriminate.
Qed.

(** C6, amended: the report counts the pages with a change for three
    fields. [seoImpact.pagesWithTitleChanges],
    [pagesWithDescriptionChanges] and [pagesWithCanonicalChanges] are the
    numbers of results in [pageComparisons] that hold a change to [title],
    to [description] and to [canonical]; there is no count for another
    field.  In [summary], [oldWebsiteUrls] and [newWebsiteUrls] are the
    numbers of URLs of the two crawls, and [missingUrls], [newUrls] and
    [pagesWithChanges] are the lengths of the report's [missingUrls],
    [newUrls] and [pageComparisons]. *)
Theorem C6_report_counts (R : Type) (extractPageInfo : R -> string -> R * PageInfo)
    (comparePageInfo : PageInfo -> PageInfo -> string -> Differences)
    (oldDomain newDomain timestamp : string) (testTag : string * string)
    (oldData newData : CrawlData) (r : R) :
  let res := fst (report extractPageInfo comparePageInfo oldDomain newDomain
                    timestamp testTag oldData newData r) in
  let pages name := List.length (List.filter (changesField name) (pageComparisons res)) in
  (forall name p, changesField name p = true <-> hasChangeTo name p)
  /\ fieldImpact res "title" = Some (pages "title")
  /\ fieldImpact res "description" = Some (pages "description")
  /\ fieldImpact res "canonical" = Some (pages "canonical")
  /\ (forall name, name <> "title" -> name <> "description" -> name <> "canonical" ->
        fieldImpact res name = None)
  /\ Summary.oldWebsiteUrls (summary res) = List.length (urls oldData)
  /\ Summary.newWebsiteUrls (summary res) = List.length (urls newData)
  /\ Summary.missingUrls (summary res) = List.length (missingUrls res)
  /\ Summary.newUrls (summary res) = List.length (newUrls res)
  /\ Summary.pagesWithChanges (summary res) = List.length (pageComparisons res).
Proof.
  cbv zeta.
  destruct (report_members extractPageInfo comparePageInfo oldDomain newDomain
              timestamp testTag oldData newData r) as (_ & _ & _ & Hsum & Hseo).
  split; [apply changesField_spec|].
  unfold fieldImpact. rewrite Hseo, Hsum. simpl.
  repeat split.
  intros name H1 H2 H3.
  apply String.eqb_neq in H1, H2, H3. now rewrite H1, H2, H3.
Qed.

Lemma C6_report_counts_witness :
  fieldImpact Scenario.keywordsReport "keywords" = None.
Proof.
  apply (C6_report_counts (option unit)
           (awaited (MigrationComparator.extractPageInfo Scenario.loadKeywords))
           MigrationComparator.comparePageInfo Scenario.oldSite Scenario.newSite
           "t" ("testDuration", "0ms") Scenario.oldKeywords Scenario.newKeywords (Some tt));
    apply String.eqb_neq; reflexivity.
Defined.

(** C8: a result without a change never appears in [pageComparisons].
    For the differ of either class and every run of the loop, every result
    of the report has at least one change, [summary.pagesWithChanges] is the
    length of [pageComparisons], and the turn of the loop for a common URL
    whose two extracted records are equal pushes nothing. *)
Theorem C8_only_changed_pages (R : Type) (extractPageInfo : R -> string -> R * PageInfo)
    (comparePageInfo : PageInfo -> PageInfo -> string -> Differences)
    (oldDomain newDomain timestamp : string) (testTag : string * string)
    (oldData newData : CrawlData) (r : R) :
  comparePageInfo = MigrationComparator.comparePageInfo
  \/ comparePageInfo = SimpleMigrationComparator.comparePageInfo ->
  let res := fst (report extractPageInfo comparePageInfo
                    oldDomain newDomain timestamp testTag oldData newData r) in
  Forall (fun p => changes p <> []) (pageComparisons res)
  /\ Summary.pagesWithChanges (summary res) = List.length (pageComparisons res)
  /\ forall (oldUrl : string) (r0 r1 r2 : R) (oldInfo newInfo : PageInfo)
            (acc : list Differences),
       extractPageInfo r0 (default "" (snapshots oldData !! JS.sanitize oldUrl))
       = (r1, oldInfo) ->
       extractPageInfo r1
         (default "" (snapshots newData !! JS.sanitize (convert oldDomain newDomain oldUrl)))
       = (r2, newInfo) ->
       oldInfo = newInfo ->
       snd (comparePair extractPageInfo comparePageInfo
              oldDomain newDomain oldData newData oldUrl (r0, acc)) = acc.
Proof.
  intros Hclass. cbv zeta.
  destruct (report_members extractPageInfo comparePageInfo
              oldDomain newDomain timestamp testTag oldData newData r)
    as (_ & _ & Hpcs & Hsum & _).
  split; [|split].
  - rewrite Hpcs. apply loop_all_changed. constructor.
  - now rewrite Hsum.
  - intros oldUrl r0 r1 r2 oldInfo newInfo acc H1 H2 ->.
    unfold comparePair. simpl fst. simpl snd.
    destruct (present _ && present _); [|reflexivity].
    rewrite H1, H2.
    destruct Hclass as [-> | ->].
    + now rewrite full_comparePageInfo_same.
    + now rewrite simple_comparePageInfo_same.
Qed.

Lemma C8_only_changed_pages_witness :
  snd (comparePair (awaited (MigrationComparator.extractPageInfo Scenario.setContent))
         MigrationComparator.comparePageInfo "http://o" "http://n"
         Scenario.oldSame Scenario.newSame "http://o/p" (Some tt, [])) = [].
Proof.
  apply (proj2 (proj2 (C8_only_changed_pages (option unit)
                         (awaited (MigrationComparator.extractPageInfo Scenario.setContent))
                         MigrationComparator.comparePageInfo
                         "http://o" "http://n" "t" ("testDuration", "0ms")
                         Scenario.oldSame Scenario.newSame (Some tt) (or_introl eq_refl)))
           "http://o/p" (Some tt) (Some tt) (Some tt)
           (MigrationComparator.pageInfoOf (Scenario.titlePage "Home"))
           (MigrationComparator.pageInfoOf (Scenario.titlePage "Home"))).
  - vm_compute. reflexivity.
  - vm_compute. reflexivity.
  - reflexivity.
Defined.

(** ** The crawler *)

Section CrawlLogic.
Context {R : Type}.
Implicit Types (s : Session R) (P Inv : Session R -> Prop).

Lemma triple_ret {A} (a : A) P Inv : triple P (ret a) Inv (fun _ s => P s).
Proof. intros s HP. split; [constructor|]. simpl. intros ? ? [= <- <-]. exact HP. Qed.

Lemma triple_ret_eq {A} (a : A) P Inv :
  triple P (ret a) Inv (fun b s => b = a /\ P s).
Proof.
  intros s HP. split; [constructor|]. simpl. intros ? ? [= <- <-]. now split.
Qed.

Lemma triple_outOfFuel {A} P Inv (Q : A -> Session R -> Prop) :
  triple P outOfFuel Inv Q.
Proof. intros s HP. split; [constructor|]. simpl. discriminate. Qed.

Lemma triple_modify (f : Session R -> Session R) P Inv (Q : unit -> Session R -> Prop) :
  (forall s, P s -> Inv (f s) /\ Q tt (f s)) ->
  triple P (modify f) Inv Q.
Proof.
  intros H s HP. destruct (H s HP) as [HI HQ]. split.
  - simpl. now repeat constructor.
  - simpl. intros ? ? [= <- <-]. exact HQ.
Qed.

Lemma triple_bind {A B} (m : Crawl R A) (k : A -> Crawl R B) P Inv
    (Q : A -> Session R -> Prop) (Q' : B -> Session R -> Prop) :
  triple P m Inv Q ->
  (forall a, triple (Q a) (k a) Inv Q') ->
  triple P (bind m k) Inv Q'.
Proof.
  intros Hm Hk s HP. unfold bind.
  destruct (Hm s HP) as [Hlog Hend].
  destruct (m s) as [l1 [[a s1]|]]; simpl in *.
  - destruct (Hk a s1 (Hend a s1 eq_refl)) as [Hlog2 Hend2].
    destruct (k a s1) as [l2 res]; simpl in *.
    split; [now apply Forall_app|exact Hend2].
  - split; [exact Hlog|discriminate].
Qed.

Lemma triple_get_bind {B} (k : Session R -> Crawl R B) P Inv
    (Q' : B -> Session R -> Prop) :
  (forall s0, P s0 -> triple (fun s => s = s0) (k s0) Inv Q') ->
  triple P (bind get k) Inv Q'.
Proof.
  intros Hk s HP. unfold bind, get.
  destruct (Hk s HP s eq_refl) as [Hlog Hend].
  destruct (k s s) as [l2 res]; simpl in *. split; assumption.
Qed.

Lemma triple_weaken {A} (m : Crawl R A) P P' Inv (Q Q' : A -> Session R -> Prop) :
  triple P m Inv Q ->
  (forall s, P' s -> P s) ->
  (forall a s, Q a s -> Q' a s) ->
  triple P' m Inv Q'.
Proof.
  intros Hm HP HQ s HP'. destruct (Hm s (HP s HP')) as [Hlog Hend].
  split; [exact Hlog|]. intros a s' E. apply HQ, Hend, E.
Qed.

Lemma triple_forEach (body : string -> Crawl R unit) (xs : list string) P Inv :
  (forall x, In x xs -> triple P (body x) Inv (fun _ => P)) ->
  triple P (forEach body xs) Inv (fun _ => P).
Proof.
  induction xs as [|x xs IH]; intros H; simpl.
  - apply triple_ret.
  - eapply triple_bind; [apply H; now left|].
    intros ?. apply IH. intros y Hy. apply H. now right.
Qed.

Lemma triple_forOf (body : string -> Crawl R Completion) (xs : list string) P Inv :
  (forall x, In x xs -> triple P (body x) Inv (fun _ => P)) ->
  triple P (forOf body xs) Inv (fun _ => P).
Proof.
  induction xs as [|x xs IH]; intros H; simpl.
  - apply triple_ret.
  - eapply triple_bind; [apply H; now left|].
    intros [|]; [|apply triple_ret].
    apply IH. intros y Hy. apply H. now right.
Qed.

(** ** The last session of the log is the one the computation ends in *)

Lemma endsInLast_ret {A} (a : A) : endsInLast (ret (R:=R) a).
Proof. intros s ? ? [= <- <-]. reflexivity. Qed.

Lemma endsInLast_modify (f : Session R -> Session R) : endsInLast (modify f).
Proof. intros s ? ? [= <- <-]. reflexivity. Qed.

Lemma endsInLast_outOfFuel {A} : endsInLast (outOfFuel (R:=R) (A:=A)).
Proof. intros s ? ?. discriminate. Qed.

Lemma last_app_default (l1 l2 : list (Session R)) (s : Session R) :
  List.last (l1 ++ l2) s = List.last l2 (List.last l1 s).
Proof.
  revert s. induction l2 as [|x l2 IH] using rev_ind; intros s.
  - now rewrite app_nil_r.
  - now rewrite app_assoc, !List.last_last.
Qed.

Lemma endsInLast_bind {A B} (m : Crawl R A) (k : A -> Crawl R B) :
  endsInLast m -> (forall a, endsInLast (k a)) -> endsInLast (bind m k).
Proof.
  intros Hm Hk s b s'. unfold bind.
  specialize (Hm s).
  destruct (m s) as [l1 [[a s1]|]]; simpl in *; [|discriminate].
  specialize (Hk a s1 b s').
  destruct (k a s1) as [l2 res]; simpl in *.
  intros E. rewrite last_app_default, (Hm a s1 eq_refl). now apply Hk.
Qed.

Lemma endsInLast_get_bind {B} (k : Session R -> Crawl R B) :
  (forall s0, endsInLast (k s0)) -> endsInLast (bind get k).
Proof.
  intros Hk s b s'. unfold bind, get.
  specialize (Hk s s b s').
  destruct (k s s) as [l2 res]; simpl in *. exact Hk.
Qed.

Lemma endsInLast_forEach (body : string -> Crawl R unit) (xs : list string) :
  (forall x, endsInLast (body x)) -> endsInLast (forEach body xs).
Proof.
  intros H. induction xs as [|x xs IH]; simpl.
  - apply endsInLast_ret.
  - apply endsInLast_bind; [apply H|]. intros ?. exact IH.
Qed.

Lemma endsInLast_forOf (body : string -> Crawl R Completion) (xs : list string) :
  (forall x, endsInLast (body x)) -> endsInLast (forOf body xs).
Proof.
  intros H. induction xs as [|x xs IH]; simpl.
  - apply endsInLast_ret.
  - apply endsInLast_bind; [apply H|]. intros [|]; [exact IH|apply endsInLast_ret].
Qed.

(** A run has a session to return in exactly when the call returned. *)
Lemma returned_Some (res : option (Completion * Session R)) (s : Session R) :
  returned res = Some (tt, s) <-> res = Some (Returned, s).
Proof.
  destruct res as [[[|] s']|]; simpl; split; intros H; try discriminate;
    injection H as <-; reflexivity.
Qed.

End CrawlLogic.

Section Sets.

Lemma has_true (set : list string) (x : string) : JS.has set x = true <-> In x set.
Proof.
  unfold JS.has, JS.includes. rewrite List.existsb_exists. split.
  - intros (y & Hin & E). apply String.eqb_eq in E. now subst.
  - intros H. exists x. split; [exact H|apply String.eqb_refl].
Qed.

Lemma has_false (set : list string) (x : string) : JS.has set x = false <-> ~ In x set.
Proof.
  rewrite <- has_true. destruct (JS.has set x); split; intros H; try easy.
Qed.

Lemma add_In (set : list string) (x u : string) :
  In u (JS.add set x) <-> In u set \/ u = x.
Proof.
  unfold JS.add. destruct (JS.has set x) eqn:E.
  - apply has_true in E. split; [tauto|]. intros [H| ->]; assumption.
  - rewrite List.in_app_iff. simpl. intuition.
Qed.

Lemma add_length_new (set : list string) (x : string) :
  JS.has set x = false -> List.length (JS.add set x) = S (List.length set).
Proof.
  intros E. unfold JS.add. rewrite E, List.length_app. simpl. lia.
Qed.

Lemma startsWith_prefix (u b : string) :
  JS.startsWith u b = true <-> exists p, u = b +:+ p.
Proof.
  split.
  - revert u. induction b as [|a b IH]; intros u H.
    + now exists u.
    + destruct u as [|c u]; simpl in H; [discriminate|].
      destruct (Ascii.eqb a c) eqn:E; [|discriminate].
      apply Ascii.eqb_eq in E. subst c.
      destruct (IH u H) as [p ->]. now exists p.
  - intros [p ->]. apply startsWith_app.
Qed.

End Sets.

Section CrawlerInvariant.
Context {R : Type}.
Variable render : R -> string -> R * Outcome.
Variable baseUrl : string.
Variable maxPages : option nat.

Local Abbreviation page := (crawlPage render baseUrl maxPages).

(** [P] holds between the calls of [crawlPage] and [Inv] after every
    assignment, when both only read [visitedUrls] and [pageCount], and the
    two assignments at the head of a page that is not skipped keep them. *)
Variables P Inv : Session R -> Prop.
Hypothesis frame :
  forall s s', visitedUrls s' = visitedUrls s -> pageCount s' = pageCount s ->
               P s -> P s' /\ Inv s'.
Hypothesis enter :
  forall url s, P s -> skipped baseUrl maxPages url s = false ->
                Inv (visit url s) /\ Inv (countPage (visit url s))
                /\ P (countPage (visit url s)).

Lemma modify_frame (f : Session R -> Session R) :
  (forall s, visitedUrls (f s) = visitedUrls s /\ pageCount (f s) = pageCount s) ->
  triple P (modify f) Inv (fun _ => P).
Proof.
  intros Hf. apply triple_modify. intros s HP.
  destruct (Hf s) as [Hv Hc]. destruct (frame s (f s) Hv Hc HP). now split.
Qed.

Lemma renderPage_frame (url : string) :
  triple P (renderPage render url) Inv (fun _ => P).
Proof.
  intros s HP. unfold renderPage.
  destruct (render (browser s) url) as [r o]. simpl.
  destruct (frame s (mkSession (allUrls s) (visitedUrls s) (htmlSnapshots s)
                       (pageCount s) r) eq_refl eq_refl HP) as [HP' HI].
  split; [now repeat constructor|]. intros ? ? [= <- <-]. exact HP'.
Qed.

Lemma discoverAll_frame (pageUrls : list string) :
  triple P (forEach (fun u => modify (discover u)) pageUrls) Inv (fun _ => P).
Proof.
  apply triple_forEach. intros u _. apply modify_frame. now intros s.
Qed.

Lemma afterRender_invariant (crawl : string -> Crawl R Completion) (url : string)
    (o : Outcome) :
  (forall u, triple P (crawl u) Inv (fun _ => P)) ->
  triple P (afterRender maxPages crawl url o) Inv (fun _ => P).
Proof.
  intros Hcrawl.
  destruct o as [caught|html caught|html pageUrls caught|html pageUrls]; simpl.
  - apply triple_ret.
  - eapply triple_bind; [apply modify_frame; now intros s|].
    intros ?. apply triple_ret.
  - eapply triple_bind; [apply modify_frame; now intros s|].
    intros ?. eapply triple_bind; [apply discoverAll_frame|].
    intros ?. apply triple_ret.
  - eapply triple_bind; [apply modify_frame; now intros s|].
    intros ?. eapply triple_bind; [apply discoverAll_frame|].
    intros ?. eapply triple_bind; [|intros ?; apply triple_ret].
    apply triple_forOf. intros u _.
    unfold crawlIfWanted. apply triple_get_bind. intros s0 H0.
    destruct (wanted maxPages u s0).
    + eapply triple_weaken; [apply Hcrawl| |]; simpl; intros; subst; auto.
    + eapply triple_weaken; [apply (triple_ret Returned (fun s => s = s0))| |];
        simpl; intros; subst; auto.
Qed.

Lemma crawlPage_invariant (fuel : nat) (url : string) :
  triple P (page fuel url) Inv (fun _ => P).
Proof.
  revert url. induction fuel as [|fuel IH]; intros url; simpl.
  - apply triple_outOfFuel.
  - apply triple_get_bind. intros s0 H0.
    destruct (skipped baseUrl maxPages url s0) eqn:E.
    + eapply triple_weaken; [apply (triple_ret Returned (fun s => s = s0))| |];
        simpl; intros; subst; auto.
    + destruct (enter url s0 H0 E) as (H1 & H2 & H3).
      eapply triple_bind with (Q := fun _ s => s = visit url s0).
      { apply triple_modify. intros s ->. now split. }
      intros ?. eapply triple_bind with (Q := fun _ s => P s).
      { apply triple_modify. intros s ->. now split. }
      intros ?. eapply triple_bind; [apply renderPage_frame|].
      intros o. apply afterRender_invariant. exact IH.
Qed.

(** The invariant on every session of a crawl. *)
Lemma crawlStates_invariant (fuel : nat) (r : R) :
  P (newSession r) -> Inv (newSession r) ->
  Forall Inv (crawlStates render baseUrl maxPages fuel r).
Proof.
  intros HP HI. unfold crawlStates, crawlRun. simpl. constructor; [exact HI|].
  now apply (crawlPage_invariant fuel baseUrl).
Qed.

End CrawlerInvariant.

Section CrawlerEnds.
Context {R : Type}.
Variable render : R -> string -> R * Outcome.
Variable baseUrl : string.
Variable maxPages : option nat.

Lemma crawlPage_endsInLast (fuel : nat) (url : string) :
  endsInLast (crawlPage render baseUrl maxPages fuel url).
Proof.
  revert url. induction fuel as [|fuel IH]; intros url; simpl.
  - apply endsInLast_outOfFuel.
  - apply endsInLast_get_bind. intros s0.
    destruct (skipped baseUrl maxPages url s0); [apply endsInLast_ret|].
    apply endsInLast_bind; [apply endsInLast_modify|]. intros ?.
    apply endsInLast_bind; [apply endsInLast_modify|]. intros ?.
    apply endsInLast_bind.
    { intros s o s'. unfold renderPage.
      destruct (render (browser s) url) as [r o']. simpl. now intros [= <- <-]. }
    intros o.
    destruct o as [caught|html caught|html pageUrls caught|html pageUrls]; simpl.
    + apply endsInLast_ret.
    + apply endsInLast_bind; [apply endsInLast_modify|]. intros ?.
      apply endsInLast_ret.
    + apply endsInLast_bind; [apply endsInLast_modify|]. intros ?.
      apply endsInLast_bind; [|intros ?; apply endsInLast_ret].
      apply endsInLast_forEach. intros u. apply endsInLast_modify.
    + apply endsInLast_bind; [apply endsInLast_modify|]. intros ?.
      apply endsInLast_bind.
      { apply endsInLast_forEach. intros u. apply endsInLast_modify. }
      intros ?. apply endsInLast_bind; [|intros ?; apply endsInLast_ret].
      apply endsInLast_forOf. intros u.
      unfold crawlIfWanted. apply endsInLast_get_bind. intros s1.
      destruct (wanted maxPages u s1); [apply IH|apply endsInLast_ret].
Qed.

(** The session a crawl returns from is one of its [crawlStates]. *)
Lemma final_in_crawlStates (fuel : nat) (r : R) (s : Session R) :
  snd (crawlRun render baseUrl maxPages fuel r) = Some (tt, s) ->
  In s (crawlStates render baseUrl maxPages fuel r).
Proof.
  intros H. unfold crawlStates. unfold crawlRun in *. simpl in *.
  apply returned_Some in H. unfold crawlEnd in H.
  apply (crawlPage_endsInLast fuel baseUrl) in H. rewrite <- H.
  destruct (fst (crawlPage render baseUrl maxPages fuel baseUrl (newSession r)))
    as [|x l] eqn:E using rev_ind.
  - now left.
  - rewrite List.last_last. right. apply List.in_app_iff. right. now left.
Qed.

End CrawlerEnds.

(** C2: every URL in the visited set has [baseUrl] as a prefix, at every
    point of the traversal.  For every rendering session, base URL, budget
    and fuel, in each session the crawl goes through, from the fresh one to
    the one it returns from, each visited URL is [baseUrl] followed by some
    text. *)
Theorem C2_visited_has_base_prefix (R : Type) (render : R -> string -> R * Outcome)
    (baseUrl : string) (maxPages : option nat) (fuel : nat) (r : R)
    (s : Session R) (u : string) :
  In s (crawlStates render baseUrl maxPages fuel r) ->
  In u (visitedUrls s) ->
  JS.startsWith u baseUrl = true /\ exists p, u = baseUrl +:+ p.
Proof.
  intros Hs Hu.
  assert (Forall (inScope baseUrl) (crawlStates render baseUrl maxPages fuel r)) as H.
  { apply crawlStates_invariant with (P := inScope baseUrl).
    - intros s1 s2 Hv _ H1. unfold inScope. rewrite Hv. now split.
    - intros url s1 H1 E. unfold skipped in E.
      apply orb_false_elim in E as [E _]. apply orb_false_elim in E as [_ E].
      apply negb_false_iff in E.
      assert (inScope baseUrl (visit url s1)) as Hin.
      { intros v Hv. simpl in Hv. apply add_In in Hv as [Hv| ->]; auto. }
      repeat split; exact Hin.
    - intros v [].
    - intros v []. }
  rewrite List.Forall_forall in H. specialize (H s Hs u Hu).
  split; [exact H|]. now apply startsWith_prefix.
Qed.

Lemma C2_visited_has_base_prefix_witness :
  JS.startsWith "http://o/a-b" "http://o" = true /\ exists p, "http://o/a-b" = "http://o" +:+ p.
Proof.
  apply (C2_visited_has_base_prefix unit Scenario.render "http://o" None 3 tt
           (mkSession ["http://o/a-b"; "http://o/broken"; "http://o/a_b"]
              ["http://o"; "http://o/a-b"]
              {[ "http___o" := "<title>Home</title>" ]} 2 tt)).
  - vm_compute. repeat (first [left; reflexivity | right]).
  - simpl. right. left. reflexivity.
Defined.

(** C3: with a page budget [m] the visited set never holds more than [m]
    URLs, in any session the crawl goes through; and with the budget 0 the
    crawl returns at once, having gone through the fresh session only, with
    no visited URL, no discovered URL and no snapshot. *)
Theorem C3_page_budget (R : Type) (render : R -> string -> R * Outcome)
    (baseUrl : string) (m fuel : nat) (r : R) :
  (forall s, In s (crawlStates render baseUrl (Some m) fuel r) ->
             List.length (visitedUrls s) <= m)
  /\ crawlStates render baseUrl (Some 0) (S fuel) r = [newSession r]
  /\ visitedUrls (newSession r) = []
  /\ SimpleMigrationComparator.crawlWebsite render baseUrl 0 (S fuel) r
     = Some (mkCrawlData [] ∅, r).
Proof.
  split.
  - assert (Forall (withinBudget m) (crawlStates render baseUrl (Some m) fuel r)) as H.
    { apply crawlStates_invariant with (P := counted m).
      - intros s1 s2 Hv Hc [H1 H2]. unfold counted, withinBudget.
        rewrite Hv, Hc. split; [split|]; lia.
      - intros url s1 [H1 H2] E. unfold skipped in E.
        apply orb_false_elim in E as [E Hb]. apply orb_false_elim in E as [Hv _].
        simpl in Hb. apply Nat.leb_gt in Hb.
        unfold counted, withinBudget. simpl.
        rewrite (add_length_new _ _ Hv). repeat split; lia.
      - split; simpl; lia.
      - unfold withinBudget. simpl. lia. }
    rewrite List.Forall_forall in H. exact H.
  - assert (crawlPage render baseUrl (Some 0) (S fuel) baseUrl (newSession r)
            = ([], Some (Returned, newSession r))) as E.
    { simpl. unfold bind, get. unfold skipped. simpl.
      rewrite orb_true_r. reflexivity. }
    unfold SimpleMigrationComparator.crawlWebsite, crawlWebsite, crawlStates, crawlRun,
      crawlEnd.
    rewrite E. repeat split.
Qed.

Lemma C3_page_budget_witness :
  List.length ["http://o"; "http://o/a-b"] <= 2.
Proof.
  apply (proj1 (C3_page_budget unit Scenario.render "http://o" 2 3 tt)
           (mkSession ["http://o/a-b"; "http://o/broken"; "http://o/a_b"]
              ["http://o"; "http://o/a-b"]
              {[ "http___o" := "<title>Home</title>" ]} 2 tt)).
  vm_compute. repeat (first [left; reflexivity | right]).
Defined.

(** ** The budgeted crawl returns *)

Section Returns.
Context {R : Type}.
Implicit Types (P Q : Session R -> Prop).








Variable render : R -> string -> R * Outcome.
Variable baseUrl : string.
Variable m : nat.




End Returns.

(** ** Exceptions that leave a call *)

Section Throws.
Context {R : Type}.
Variable render : R -> string -> R * Outcome.
Variable baseUrl : string.
Variable maxPages : option nat.

(** The run of a page up to the outcome of its rendering. *)
Lemma crawlPage_entered (fuel : nat) (url : string) (s : Session R) (r' : R) (o : Outcome) :
  skipped baseUrl maxPages url s = false ->
  render (browser s) url = (r', o) ->
  crawlPage render baseUrl maxPages (S fuel) url s
  = (visit url s :: countPage (visit url s) :: failedVisit url r' s
       :: fst (afterRender maxPages (crawlPage render baseUrl maxPages fuel) url o
                 (failedVisit url r' s)),
     snd (afterRender maxPages (crawlPage render baseUrl maxPages fuel) url o
            (failedVisit url r' s))).
Proof.
  intros Hskip Hrender. simpl. unfold bind at 1. unfold get at 1. rewrite Hskip.
  unfold bind at 1. unfold modify at 1.
  unfold bind at 1. unfold modify at 1.
  unfold bind at 1. unfold renderPage at 1. simpl. rewrite Hrender.
  unfold failedVisit.
  destruct (afterRender maxPages (crawlPage render baseUrl maxPages fuel) url o _)
    as [l res]. reflexivity.
Qed.

(** A skipped URL: nothing is rendered and nothing changes. *)
Lemma crawlPage_skipped (fuel : nat) (url : string) (s : Session R) :
  skipped baseUrl maxPages url s = true ->
  crawlPage render baseUrl maxPages (S fuel) url s = ([], Some (Returned, s)).
Proof. intros H. simpl. unfold bind, get. now rewrite H. Qed.



End Throws.


(** ** A page whose rendering fails *)

Section Failure.
Context {R : Type}.
Variable render : R -> string -> R * Outcome.
Variable baseUrl : string.
Variable maxPages : option nat.

Local Abbreviation page := (crawlPage render baseUrl maxPages).




(** The run of a page whose load fails with an error that has a message. *)
Lemma crawlPage_NavFail (fuel : nat) (url : string) (s : Session R) (r' : R) :
  skipped baseUrl maxPages url s = false ->
  render (browser s) url = (r', NavFail true) ->
  page (S fuel) url s
  = ([visit url s; countPage (visit url s); failedVisit url r' s],
     Some (Returned, failedVisit url r' s)).
Proof.
  intros Hskip Hrender.
  now rewrite (crawlPage_entered render baseUrl maxPages fuel url s r' _ Hskip Hrender).
Qed.



(** The loop is left by an exception that leaves its body. *)
Lemma forOf_thrown (body : string -> Crawl R Completion) (x : string) (rest : list string)
    (s s' : Session R) :
  snd (body x s) = Some (Thrown, s') ->
  snd (forOf body (x :: rest) s) = Some (Thrown, s').
Proof.
  intros E. cbn [forOf]. unfold bind.
  destruct (body x s) as [l res]. simpl in E. now subst res.
Qed.




(** When the base URL itself fails to load, the crawl returns the empty
    result. *)
Lemma crawlWebsite_base_fails (fuel : nat) (r r' : R) :
  maxPages <> Some 0 ->
  render r baseUrl = (r', NavFail true) ->
  crawlWebsite render baseUrl maxPages (S fuel) r = Some (mkCrawlData [] ∅, r').
Proof.
  intros Hm Hrender. unfold crawlWebsite, crawlRun, crawlEnd.
  rewrite (crawlPage_NavFail fuel baseUrl (newSession r) r'); [reflexivity| |exact Hrender].
  unfold skipped. simpl. rewrite (proj2 (startsWith_prefix baseUrl baseUrl)).
  - simpl. destruct maxPages as [[|m]|]; simpl; congruence.
  - exists "". clear. induction baseUrl as [|a b IH]; [reflexivity|].
    rewrite append_cons. now rewrite <- IH.
Qed.

(** When the [catch] block of the first page throws, [crawlPage(baseUrl)]
    ends by an exception and [crawlWebsite] has no result. *)
Lemma crawlWebsite_base_throws (fuel : nat) (r r' : R) :
  maxPages <> Some 0 ->
  render r baseUrl = (r', NavFail false) ->
  crawlEnd render baseUrl maxPages (S fuel) r = Some (Thrown, failedVisit baseUrl r' (newSession r))
  /\ crawlWebsite render baseUrl maxPages (S fuel) r = None.
Proof.
  intros Hm Hrender.
  assert (skipped baseUrl maxPages baseUrl (newSession r) = false) as Hskip.
  { unfold skipped. simpl. rewrite (proj2 (startsWith_prefix baseUrl baseUrl)).
    - simpl. destruct maxPages as [[|m]|]; simpl; congruence.
    - exists "". clear. induction baseUrl as [|a b IH]; [reflexivity|].
      rewrite append_cons. now rewrite <- IH. }
  unfold crawlWebsite, crawlRun, crawlEnd.
  rewrite (crawlPage_entered render baseUrl maxPages fuel baseUrl (newSession r) r' _
             Hskip Hrender).
  split; reflexivity.
Qed.

End Failure.

(** A promise rejected with [null] in the middle of a crawl: the [catch]
    block of [/a] throws, the loop of the home page is left, and the crawl
    returns with [/b] discovered and never visited. *)
Example null_rejection_ends_the_loop :
  exists s,
    snd (crawlRun Faults.nullRejection "http://o" None 2 tt) = Some (tt, s)
    /\ allUrls s = ["http://o/a"; "http://o/b"]
    /\ visitedUrls s = ["http://o"; "http://o/a"].
Proof. eexists. split; [vm_compute; reflexivity|]. split; reflexivity. Qed.

(** The same rejection on the first page: [crawlWebsite] has no result. *)
Example null_rejection_of_the_first_page :
  MigrationComparator.crawlWebsite Faults.nullRejection "http://o/a" 2 tt = None
  /\ exists s, crawlEnd Faults.nullRejection "http://o/a" None 2 tt = Some (Thrown, s).
Proof. split; [vm_compute; reflexivity|]. eexists. vm_compute. reflexivity. Qed.




(** ** Snapshot keys *)

(** Two pages with the same key: the second snapshot replaces the first. *)
Lemma store_same_key (R : Type) (u1 u2 h1 h2 : string) (s : Session R) :
  JS.sanitize u1 = JS.sanitize u2 ->
  htmlSnapshots (store u2 h2 (store u1 h1 s)) = htmlSnapshots (store u2 h2 s)
  /\ htmlSnapshots (store u2 h2 (store u1 h1 s)) !! JS.sanitize u1 = Some h2.
Proof.
  intros E. simpl. rewrite E. split.
  - apply insert_insert_eq.
  - apply lookup_insert_eq.
Qed.

(** C10: the snapshot key is not injective.  [http://n/a_b] and
    [http://n/a-b] are distinct URLs with the same key.  The crawl of the
    site [http://n] visits and renders both, with different HTML; the key
    they share then holds the HTML of [/a-b], rendered last, and the
    snapshots map has two entries for three visited pages.  In the
    comparison of [http://o] with [http://n], [/a-b] is the same on both
    sites, and [compareWebsites] reports a title change for it, from the
    title of the old [/a_b], whose HTML the old key holds, to its own. *)
Theorem C10_snapshot_keys_collide :
  "http://n/a_b" <> "http://n/a-b"
  /\ JS.sanitize "http://n/a_b" = JS.sanitize "http://n/a-b"
  /\ (exists s data,
        snd (crawlRun Scenario.render "http://n" None 2 tt) = Some (tt, s)
        /\ MigrationComparator.crawlWebsite Scenario.render "http://n" 2 tt = Some (data, tt)
        /\ snapshots data = htmlSnapshots s
        /\ visitedUrls s = ["http://n"; "http://n/a_b"; "http://n/a-b"]
        /\ snd (Scenario.render tt "http://n/a_b") = Rendered "<title>Underscore</title>" []
        /\ snd (Scenario.render tt "http://n/a-b") = Rendered "<title>Dash</title>" []
        /\ snapshots data !! JS.sanitize "http://n/a_b" = Some "<title>Dash</title>"
        /\ size (snapshots data) = 2
        /\ size (snapshots data) < List.length (visitedUrls s))
  /\ (exists res,
        MigrationComparator.compareWebsites Scenario.render Scenario.setContent
          "http://o" "http://n" "t" "0ms" 2 tt = Some (res, tt)
        /\ snd (Scenario.render tt "http://o/a-b") = snd (Scenario.render tt "http://n/a-b")
        /\ In (mkDifferences "http://n/a-b"
                 [mkChange "title" (JS.Str "Underscore") (JS.Str "Dash") "content_change"])
              (pageComparisons res)).
Proof.
  split; [discriminate|]. split; [reflexivity|]. split.
  - eexists _, _. split; [vm_compute; reflexivity|].
    split; [vm_compute; reflexivity|].
    repeat split; vm_compute; lia.
  - eexists. split; [vm_compute; reflexivity|].
    split; [reflexivity|]. simpl. tauto.
Qed.
(** * Further properties of the crawler *)

Section CrawlerSteps.
Context {R : Type}.
Variable render : R -> string -> R * Outcome.
Variable baseUrl : string.
Variable maxPages : option nat.

(** [P] holds in every session of a call when each assignment of
    [crawlPage] keeps it: a page is stored once its URL is visited, and a
    discovered URL is a member of the array that [page.evaluate] brought
    back from a page whose URL starts with [baseUrl]. *)
Variable P : Session R -> Prop.
Hypothesis P_visit :
  forall url s, P s -> skipped baseUrl maxPages url s = false -> P (visit url s).
Hypothesis P_count : forall s, P s -> P (countPage s).
Hypothesis P_browser :
  forall s r, P s ->
    P (mkSession (allUrls s) (visitedUrls s) (htmlSnapshots s) (pageCount s) r).
Hypothesis P_store :
  forall url html s, P s -> In url (visitedUrls s) -> P (store url html s).
Hypothesis P_discover :
  forall u s r url, P s -> JS.startsWith url baseUrl = true ->
    In u (evaluatedLinks (snd (render r url))) -> P (discover u s).

Lemma discoverAll_steps (r : R) (url : string) :
  JS.startsWith url baseUrl = true ->
  triple P (forEach (fun u => modify (discover u)) (evaluatedLinks (snd (render r url)))) P
    (fun _ => P).
Proof.
  intros Hurl. apply triple_forEach. intros u Hu.
  apply triple_modify. intros s Hs. split; now apply (P_discover u s r url).
Qed.

Lemma crawlPage_steps (fuel : nat) (url : string) :
  triple P (crawlPage render baseUrl maxPages fuel url) P (fun _ => P).
Proof.
  revert url. induction fuel as [|fuel IH]; intros url; simpl.
  - apply triple_outOfFuel.
  - apply triple_get_bind. intros s0 H0.
    destruct (skipped baseUrl maxPages url s0) eqn:E.
    + eapply triple_weaken; [apply (triple_ret Returned (fun s => s = s0))| |];
        simpl; intros; subst; auto.
    + assert (JS.startsWith url baseUrl = true) as Hurl.
      { unfold skipped in E. apply orb_false_elim in E as [E _].
        apply orb_false_elim in E as [_ E]. now apply negb_false_iff in E. }
      pose (Q := fun s : Session R => P s /\ In url (visitedUrls s)).
      assert (Q (visit url s0)) as H1.
      { split; [now apply P_visit|]. simpl. apply add_In. now right. }
      eapply triple_bind with (Q := fun _ => Q).
      { apply triple_modify. intros s ->. split; [apply H1|exact H1]. }
      intros ?. eapply triple_bind with (Q := fun _ => Q).
      { apply triple_modify. intros s [Hs Hin]. split; [now apply P_count|].
        split; [now apply P_count|exact Hin]. }
      intros ?.
      eapply triple_bind
        with (Q := fun o s => Q s /\ exists r, snd (render r url) = o).
      { intros s [Hs Hin]. unfold renderPage.
        destruct (render (browser s) url) as [r o] eqn:Er. simpl.
        split; [repeat constructor; now apply P_browser|].
        intros ? ? [= <- <-]. split; [split; [now apply P_browser|exact Hin]|].
        exists (browser s). now rewrite Er. }
      intros o.
      assert (triple (fun s => Q s /\ exists r, snd (render r url) = o)
                (modify (store url (match o with
                                    | LinksFail h _ | CloseFail h _ _ | Rendered h _ => h
                                    | NavFail _ => ""
                                    end))) P
                (fun _ s => P s /\ exists r, snd (render r url) = o)) as Hstore.
      { apply triple_modify. intros s [[Hs Hin] Hr].
        split; [now apply P_store|]. split; [now apply P_store|exact Hr]. }
      assert (forall pageUrls,
                evaluatedLinks o = pageUrls ->
                triple (fun s => P s /\ exists r, snd (render r url) = o)
                  (forEach (fun u => modify (discover u)) pageUrls) P (fun _ => P))
        as Hdisc.
      { intros pageUrls <- s [Hs [r <-]]. now apply discoverAll_steps. }
      destruct o as [caught|html caught|html pageUrls caught|html pageUrls]; simpl.
      * eapply triple_weaken;
          [apply (triple_ret (ended caught)
                    (fun s => Q s /\ exists r, snd (render r url) = NavFail caught))| |];
          simpl; auto.
        now intros _ s [[Hs _] _].
      * eapply triple_bind; [exact Hstore|]. intros ?.
        eapply triple_weaken; [apply (triple_ret (ended caught) P)| |]; simpl; auto.
        now intros s [Hs _].
      * eapply triple_bind; [exact Hstore|]. intros ?.
        eapply triple_bind; [now apply Hdisc|]. intros ?. apply triple_ret.
      * eapply triple_bind; [exact Hstore|]. intros ?.
        eapply triple_bind; [now apply Hdisc|]. intros ?.
        eapply triple_bind; [|intros ?; apply triple_ret].
        apply triple_forOf. intros u _.
        unfold crawlIfWanted. apply triple_get_bind. intros s1 Hs1.
        destruct (wanted maxPages u s1).
        -- eapply triple_weaken; [apply IH| |]; simpl; intros; subst; auto.
        -- eapply triple_weaken; [apply (triple_ret Returned (fun s => s = s1))| |];
             simpl; intros; subst; auto.
Qed.

Lemma crawlStates_steps (fuel : nat) (r : R) :
  P (newSession r) -> Forall P (crawlStates render baseUrl maxPages fuel r).
Proof.
  intros H. unfold crawlStates, crawlRun. simpl. constructor; [exact H|].
  now apply (crawlPage_steps fuel baseUrl).
Qed.

End CrawlerSteps.

Lemma add_NoDup (set : list string) (x : string) :
  List.NoDup set -> List.NoDup (JS.add set x).
Proof.
  intros H. unfold JS.add. destruct (JS.has set x) eqn:E; [exact H|].
  apply has_false in E. apply NoDup_ListNoDup. apply NoDup_ListNoDup in H.
  apply NoDup_app. split; [exact H|]. split.
  - intros y Hy Hy'. apply list_elem_of_In in Hy.
    apply list_elem_of_In in Hy'. destruct Hy' as [<-|[]]. contradiction.
  - apply NoDup_ListNoDup. repeat constructor. intros [].
Qed.

(** What [crawlWebsite] returns comes from the session the run ends in,
    which is one of its [crawlStates]. *)
Lemma crawlWebsite_final (R : Type) (render : R -> string -> R * Outcome)
    (baseUrl : string) (maxPages : option nat) (fuel : nat) (r r' : R)
    (data : CrawlData) :
  crawlWebsite render baseUrl maxPages fuel r = Some (data, r') ->
  exists s, snd (crawlRun render baseUrl maxPages fuel r) = Some (tt, s)
            /\ In s (crawlStates render baseUrl maxPages fuel r)
            /\ data = mkCrawlData (allUrls s) (htmlSnapshots s)
            /\ r' = browser s.
Proof.
  unfold crawlWebsite.
  destruct (snd (crawlRun render baseUrl maxPages fuel r)) as [[[] s]|] eqn:E;
    [|discriminate].
  intros [= <- <-]. exists s. split; [reflexivity|].
  split; [now apply final_in_crawlStates|]. now split.
Qed.

(** The links that the callback of [page.evaluate] returns start with
    [baseUrl]. *)
Lemma pageUrlsOf_scoped (baseUrl : string) (hrefs : list string) (u : string) :
  In u (pageUrlsOf baseUrl hrefs) -> JS.startsWith u baseUrl = true.
Proof. intros H. now apply List.filter_In in H as [_ H]. Qed.

Lemma crawlStates_scopedUrls (R : Type) (render : R -> string -> R * Outcome)
    (baseUrl : string) (maxPages : option nat) (fuel : nat) (r : R) :
  callbackIntact render baseUrl ->
  Forall (scopedUrls baseUrl) (crawlStates render baseUrl maxPages fuel r).
Proof.
  intros Hintact. apply crawlStates_steps; try (intros; assumption).
  - intros u s r0 url Hs Hurl Hu v Hv. simpl in Hv.
    apply add_In in Hv as [Hv| ->]; [now apply Hs|].
    destruct (Hintact r0 url Hurl) as [hrefs E]. rewrite E in Hu.
    now apply pageUrlsOf_scoped in Hu.
  - intros v [].
Qed.

Lemma crawlWebsite_scopedUrls (R : Type) (render : R -> string -> R * Outcome)
    (baseUrl : string) (maxPages : option nat) (fuel : nat) (r r' : R)
    (data : CrawlData) (u : string) :
  callbackIntact render baseUrl ->
  crawlWebsite render baseUrl maxPages fuel r = Some (data, r') ->
  In u (urls data) -> JS.startsWith u baseUrl = true.
Proof.
  intros Hintact E Hu. apply crawlWebsite_final in E as (s & _ & Hs & -> & _).
  pose proof (crawlStates_scopedUrls R render baseUrl maxPages fuel r Hintact) as H.
  rewrite List.Forall_forall in H. exact (H s Hs u Hu).
Qed.

Lemma scenario_callbackIntact_old : callbackIntact Scenario.render "http://o".
Proof.
  intros r u Hu. unfold Scenario.render.
  destruct (String.eqb u "http://o"); [eexists; reflexivity|].
  destruct (String.eqb u "http://o/a-b"); [exists []; reflexivity|].
  destruct (String.eqb u "http://o/a_b"); [exists []; reflexivity|].
  destruct (String.eqb u "http://n") eqn:E.
  { apply String.eqb_eq in E. subst u. vm_compute in Hu. discriminate. }
  destruct (String.eqb u "http://n/a-b"); [exists []; reflexivity|].
  destruct (String.eqb u "http://n/a_b"); [exists []; reflexivity|].
  exists []. reflexivity.
Qed.


(** X1: the discovered URLs start with [baseUrl] as long as the callback of
    [page.evaluate] runs as it is written.  When no page of the site changes
    the built-ins that the callback uses, every discovered URL starts with
    [baseUrl], in every session of the crawl, and so does every URL of the
    array [urls] that [crawlWebsite] returns.  The array that a page brings
    back is not checked again: in the crawl of a page that brings back a
    link to another host, that link is in [urls], and it is not visited. *)
Theorem crawl_urls_in_scope (R : Type) (render : R -> string -> R * Outcome)
    (baseUrl : string) (maxPages : option nat) (fuel : nat) (r : R) :
  (callbackIntact render baseUrl ->
   (forall s u, In s (crawlStates render baseUrl maxPages fuel r) ->
                In u (allUrls s) -> exists p, u = baseUrl +:+ p)
   /\ (forall data r' u,
         crawlWebsite render baseUrl maxPages fuel r = Some (data, r') ->
         In u (urls data) -> exists p, u = baseUrl +:+ p))
  /\ (exists s,
        snd (crawlRun Faults.foreignLink "http://o" maxPages 2 tt) = Some (tt, s)
        /\ (maxPages <> Some 0 -> In "http://x/ext" (allUrls s))
        /\ ~ In "http://x/ext" (visitedUrls s)
        /\ JS.startsWith "http://x/ext" "http://o" = false).
Proof.
  split.
  - intros Hintact. split.
    + intros s u Hs Hu. apply startsWith_prefix.
      pose proof (crawlStates_scopedUrls R render baseUrl maxPages fuel r Hintact) as H.
      rewrite List.Forall_forall in H. exact (H s Hs u Hu).
    + intros data r' u E Hu. apply startsWith_prefix.
      exact (crawlWebsite_scopedUrls R render baseUrl maxPages fuel r r' data u
               Hintact E Hu).
  - destruct maxPages as [[|[|m]]|].
    + eexists. split; [vm_compute; reflexivity|]. split; [congruence|].
      split; [intros []|reflexivity].
    + eexists. split; [vm_compute; reflexivity|]. split; [intros _; now left|].
      split; [|reflexivity]. intros [H|[]]. discriminate.
    + eexists. split; [vm_compute; reflexivity|]. split; [intros _; now left|].
      split; [|reflexivity]. intros [H|[]]. discriminate.
    + eexists. split; [vm_compute; reflexivity|]. split; [intros _; now left|].
      split; [|reflexivity]. intros [H|[]]. discriminate.
Qed.

Lemma crawl_urls_in_scope_witness :
  exists p, "http://o/a_b" = "http://o" +:+ p.
Proof.
  apply (proj2 (proj1 (crawl_urls_in_scope unit Scenario.render "http://o" None 2 tt)
                  scenario_callbackIntact_old)
           (mkCrawlData ["http://o/a-b"; "http://o/broken"; "http://o/a_b"]
              (<["http___o_a_b" := "<title>Underscore</title>"]>
                 (<["http___o" := "<title>Home</title>"]> ∅)))
           tt "http://o/a_b").
  - vm_compute. reflexivity.
  - simpl. right. right. left. reflexivity.
Defined.

(** X2: the visited set and the discovered set never hold a URL twice, so
    the array [urls] that [crawlWebsite] returns has no duplicates. *)
Theorem crawl_urls_distinct (R : Type) (render : R -> string -> R * Outcome)
    (baseUrl : string) (maxPages : option nat) (fuel : nat) (r : R) :
  (forall s, In s (crawlStates render baseUrl maxPages fuel r) ->
             List.NoDup (visitedUrls s) /\ List.NoDup (allUrls s))
  /\ (forall data r',
        crawlWebsite render baseUrl maxPages fuel r = Some (data, r') ->
        List.NoDup (urls data)).
Proof.
  assert (Forall distinctUrls (crawlStates render baseUrl maxPages fuel r)) as H.
  { apply crawlStates_steps; try (intros; assumption).
    - intros u s [H1 H2] _. split; [now apply add_NoDup|exact H2].
    - intros u s r0 url [H1 H2] _ _. split; [exact H1|now apply add_NoDup].
    - split; constructor. }
  rewrite List.Forall_forall in H. split.
  - exact H.
  - intros data r' E. apply crawlWebsite_final in E as (s & _ & Hs & -> & _).
    exact (proj2 (H s Hs)).
Qed.

Lemma crawl_urls_distinct_witness :
  List.NoDup ["http://o/a-b"; "http://o/broken"; "http://o/a_b"].
Proof.
  apply (proj2 (crawl_urls_distinct unit Scenario.render "http://o" None 2 tt)
           (mkCrawlData ["http://o/a-b"; "http://o/broken"; "http://o/a_b"]
              (<["http___o_a_b" := "<title>Underscore</title>"]>
                 (<["http___o" := "<title>Home</title>"]> ∅)))
           tt).
  vm_compute. reflexivity.
Defined.

Lemma keysVisited_size (R : Type) (s : Session R) :
  keysVisited s -> size (htmlSnapshots s) <= List.length (visitedUrls s).
Proof.
  intros H. rewrite <- size_dom. unfold size, set_size. simpl.
  rewrite <- (List.length_map JS.sanitize (visitedUrls s)).
  apply submseteq_length, NoDup_submseteq; [apply NoDup_elements|].
  intros k Hk. apply elem_of_elements, elem_of_dom in Hk.
  destruct (H k Hk) as (u & Hu & <-).
  apply list_elem_of_In, List.in_map, Hu.
Qed.

Lemma crawlStates_withinBudget (R : Type) (render : R -> string -> R * Outcome)
    (baseUrl : string) (m fuel : nat) (r : R) (s : Session R) :
  In s (crawlStates render baseUrl (Some m) fuel r) ->
  List.length (visitedUrls s) <= m.
Proof.
  revert s. apply List.Forall_forall.
  apply crawlStates_invariant with (P := counted m).
  - intros s1 s2 Hv Hc [H1 H2]. unfold counted, withinBudget.
    rewrite Hv, Hc. split; [split|]; lia.
  - intros url s1 [H1 H2] E. unfold skipped in E.
    apply orb_false_elim in E as [E Hb]. apply orb_false_elim in E as [Hv _].
    simpl in Hb. apply Nat.leb_gt in Hb.
    unfold counted, withinBudget. simpl.
    rewrite (add_length_new _ _ Hv). repeat split; lia.
  - split; simpl; lia.
  - unfold withinBudget. simpl. lia.
Qed.

(** X3: every snapshot is stored under the key of a visited URL, in every
    session of the crawl, so there are never more snapshots than visited
    URLs; with a page budget [m] the map that [crawlWebsite] returns holds at
    most [m] snapshots. *)
Theorem crawl_snapshot_keys (R : Type) (render : R -> string -> R * Outcome)
    (baseUrl : string) (maxPages : option nat) (fuel : nat) (r : R) :
  (forall s k, In s (crawlStates render baseUrl maxPages fuel r) ->
               is_Some (htmlSnapshots s !! k) ->
               exists u, In u (visitedUrls s) /\ JS.sanitize u = k)
  /\ (forall s, In s (crawlStates render baseUrl maxPages fuel r) ->
                size (htmlSnapshots s) <= List.length (visitedUrls s))
  /\ (forall m data r',
        maxPages = Some m ->
        crawlWebsite render baseUrl maxPages fuel r = Some (data, r') ->
        size (snapshots data) <= m).
Proof.
  assert (Forall keysVisited (crawlStates render baseUrl maxPages fuel r)) as H.
  { apply crawlStates_steps; try (intros; assumption).
    - intros u s Hs _ k Hk. destruct (Hs k Hk) as (v & Hv & E).
      exists v. split; [|exact E]. simpl. apply add_In. now left.
    - intros u html s Hs Hu k Hk. simpl in Hk.
      destruct (decide (JS.sanitize u = k)) as [E|E].
      + now exists u.
      + rewrite lookup_insert_ne in Hk by exact E. now apply Hs.
    - intros k Hk. simpl in Hk. rewrite lookup_empty in Hk.
      now destruct Hk. }
  rewrite List.Forall_forall in H. split; [|split].
  - intros s k Hs. now apply H.
  - intros s Hs. now apply keysVisited_size, H.
  - intros m data r' -> E.
    apply crawlWebsite_final in E as (s & _ & Hs & -> & _). simpl.
    etransitivity; [apply keysVisited_size, H, Hs|].
    exact (crawlStates_withinBudget R render baseUrl m fuel r s Hs).
Qed.

Lemma crawl_snapshot_keys_witness :
  size (snapshots (mkCrawlData ["http://o/a-b"; "http://o/broken"; "http://o/a_b"]
                     (<["http___o_a_b" := "<title>Dash</title>"]>
                        (<["http___o" := "<title>Home</title>"]> ∅)))) <= 2.
Proof.
  apply (proj2 (proj2 (crawl_snapshot_keys unit Scenario.render "http://o" (Some 2) 3 tt))
           2
           (mkCrawlData ["http://o/a-b"; "http://o/broken"; "http://o/a_b"]
              (<["http___o_a_b" := "<title>Dash</title>"]>
                 (<["http___o" := "<title>Home</title>"]> ∅)))
           tt).
  - reflexivity.
  - vm_compute. reflexivity.
Defined.
(** ** The crawl without a budget visits what it discovers *)

Section Exploration.
Context {R : Type}.
Variable render : R -> string -> R * Outcome.
Variable baseUrl : string.
Hypothesis noCloseFail : neverCloseFail render.
Hypothesis allCaught : failuresCaught render.

Local Abbreviation page := (crawlPage render baseUrl None).
Local Abbreviation everywhere := (fun _ : Session R => True).

Lemma explored_weaken (L L' : list string) (s : Session R) :
  (forall u, In u L -> JS.startsWith u baseUrl = true ->
             In u L' \/ In u (visitedUrls s)) ->
  explored baseUrl L s -> explored baseUrl L' s.
Proof.
  intros HL H u Hu Hscope. destruct (H u Hu Hscope) as [Hv|Hp]; [now left|].
  destruct (HL u Hp Hscope); [now right|now left].
Qed.

Lemma triple_everywhere {A} (m : Crawl R A) (l : list (Session R)) :
  Forall everywhere l.
Proof. apply List.Forall_forall. intros; exact I. Qed.

(** From a session where every discovered URL of the site is visited or
    pending, a call returns, in such a session, with its own URL visited
    when it is in scope, and with everything still visited that was. *)
Lemma crawlPage_explores (fuel : nat) :
  forall (url : string) (L V : list string),
    triple (fun s => explored baseUrl L s /\ incl V (visitedUrls s))
      (page fuel url) everywhere
      (fun c s => c = Returned
                  /\ explored baseUrl L s /\ incl V (visitedUrls s)
                  /\ (JS.startsWith url baseUrl = true -> In url (visitedUrls s))).
Proof.
  induction fuel as [|fuel IH]; intros url L V s0 [HE HV].
  { split; [constructor|]. simpl. discriminate. }
  split; [apply (triple_everywhere (page (S fuel) url))|].
  destruct (skipped baseUrl None url s0) eqn:Hskip.
  { rewrite (crawlPage_skipped render baseUrl None fuel url s0 Hskip). simpl.
    intros ? ? [= <- <-]. repeat split; try assumption.
    intros Hs. unfold skipped in Hskip. simpl in Hskip.
    rewrite Hs in Hskip. simpl in Hskip. rewrite !orb_false_r in Hskip.
    now apply has_true. }
  pose proof (noCloseFail (browser s0) url) as Hclose.
  pose proof (allCaught (browser s0) url) as Hcaught.
  destruct (render (browser s0) url) as [r1 o] eqn:Hrender. simpl in Hclose, Hcaught.
  rewrite (crawlPage_entered render baseUrl None fuel url s0 r1 o Hskip Hrender).
  cbn [snd].
  set (s1 := failedVisit url r1 s0).
  assert (explored baseUrl L s1 /\ incl (url :: V) (visitedUrls s1)) as [HE1 HV1].
  { split.
    - intros u Hu Hscope. destruct (HE u Hu Hscope) as [Hv|Hp]; [left|now right].
      simpl. apply add_In. now left.
    - intros v [<-|Hv]; simpl; apply add_In; [now right|left; now apply HV]. }
  assert (forall s : Session R,
            explored baseUrl L s /\ incl (url :: V) (visitedUrls s) ->
            explored baseUrl L s /\ incl V (visitedUrls s)
            /\ (JS.startsWith url baseUrl = true -> In url (visitedUrls s)))
    as Hdone.
  { intros s [H1 H2]. repeat split; [exact H1| |].
    - intros v Hv. apply H2. now right.
    - intros _. apply H2. now left. }
  destruct o as [caught|html caught|html xs caught|html xs]; simpl.
  - subst caught. simpl. intros ? ? [= <- <-]. split; [reflexivity|]. now apply Hdone.
  - subst caught. simpl. intros ? ? [= <- <-]. split; [reflexivity|]. now apply Hdone.
  - now destruct (Hclose html xs caught).
  - (* the snapshot, the links, the loop *)
    assert (triple (fun s => explored baseUrl (L ++ xs) s /\ incl (url :: V) (visitedUrls s))
              (forEach (fun u => modify (discover u)) xs) everywhere
              (fun _ s => explored baseUrl (L ++ xs) s
                          /\ incl (url :: V) (visitedUrls s)))
      as Hdiscover.
    { apply triple_forEach. intros x Hx. apply triple_modify.
      intros s [H1 H2]. split; [exact I|]. split; [|exact H2].
      intros u Hu Hscope. simpl in Hu.
      apply add_In in Hu as [Hu| ->]; [now apply H1|].
      right. apply List.in_app_iff. now right. }
    assert (forall ys,
              triple (fun s => explored baseUrl (L ++ ys) s
                               /\ incl (url :: V) (visitedUrls s))
                (forOf (crawlIfWanted None (page fuel)) ys) everywhere
                (fun c s => c = Returned
                            /\ explored baseUrl L s /\ incl (url :: V) (visitedUrls s)))
      as Hloop.
    { induction ys as [|y ys IHys].
      - simpl. intros s [H1 H2]. split; [constructor|].
        intros ? ? [= <- <-]. rewrite app_nil_r in H1. now repeat split.
      - simpl. eapply triple_bind
          with (Q := fun c s => c = Returned
                                /\ explored baseUrl (L ++ ys) s
                                /\ incl (url :: V) (visitedUrls s)).
        + unfold crawlIfWanted. apply triple_get_bind. intros s2 [H1 H2].
          destruct (wanted None y s2) eqn:Hw.
          * eapply triple_weaken; [apply (IH y (L ++ y :: ys) (url :: V))| |].
            -- intros s ->. now split.
            -- simpl. intros c s (Hc & H3 & H4 & H5).
               split; [exact Hc|]. split; [|exact H4].
               eapply explored_weaken; [|exact H3].
               intros u Hu Hscope. apply List.in_app_iff in Hu as [Hu|[<-|Hu]].
               ++ left. apply List.in_app_iff. now left.
               ++ right. now apply H5.
               ++ left. apply List.in_app_iff. now right.
          * eapply triple_weaken; [apply (triple_ret_eq Returned (fun s => s = s2))| |].
            -- now intros s ->.
            -- simpl. intros c s [-> ->]. split; [reflexivity|]. split; [|exact H2].
               unfold wanted in Hw. simpl in Hw. rewrite andb_true_r in Hw.
               apply negb_false_iff, has_true in Hw.
               eapply explored_weaken; [|exact H1].
               intros u Hu Hscope. apply List.in_app_iff in Hu as [Hu|[<-|Hu]].
               ++ left. apply List.in_app_iff. now left.
               ++ now right.
               ++ left. apply List.in_app_iff. now right.
        + intros [|].
          * eapply triple_weaken; [exact IHys| |]; simpl; [|auto].
            now intros s (_ & H1 & H2).
          * intros s [Habs _]. discriminate. }
    assert (triple (fun s => s = s1)
              (modify (store url html) ;;;
               forEach (fun u => modify (discover u)) xs ;;;
               forOf (crawlIfWanted None (page fuel)) xs ;;;
               ret Returned) everywhere
              (fun c s => c = Returned
                          /\ explored baseUrl L s /\ incl (url :: V) (visitedUrls s)))
      as Hrest.
    { eapply triple_bind
        with (Q := fun _ s => explored baseUrl (L ++ xs) s
                              /\ incl (url :: V) (visitedUrls s)).
      - apply triple_modify. intros s ->. split; [exact I|]. split; [|exact HV1].
        eapply explored_weaken; [|exact HE1].
        intros u Hu _. left. apply List.in_app_iff. now left.
      - intros ?. eapply triple_bind; [exact Hdiscover|]. intros ?.
        eapply triple_bind; [apply Hloop|]. intros c.
        eapply triple_weaken;
          [apply (triple_ret_eq Returned
                    (fun s => explored baseUrl L s /\ incl (url :: V) (visitedUrls s)))
          | |]; simpl.
        + now intros s (_ & H1 & H2).
        + now intros c' s [-> H]. }
    destruct (Hrest s1 eq_refl) as [_ Hend].
    intros a s' E. specialize (Hend a s' E).
    destruct Hend as [H1 H2]. split; [|now apply Hdone].
    exact H1.
Qed.

End Exploration.
(** X4: the crawl of [MigrationComparator] visits what it discovers on the
    site, as long as every [catch] block ends.  When no promise is rejected
    with a value whose message the [catch] block cannot read, and
    [crawlWebsite] returns, every URL of the returned [urls] that starts with
    [baseUrl] is in the visited set of the session the crawl ends in. *)
Theorem full_crawl_visits_discovered (R : Type) (render : R -> string -> R * Outcome)
    (baseUrl : string) (fuel : nat) (r r' : R) (data : CrawlData) :
  neverCloseFail render ->
  failuresCaught render ->
  MigrationComparator.crawlWebsite render baseUrl fuel r = Some (data, r') ->
  exists s, snd (crawlRun render baseUrl None fuel r) = Some (tt, s)
            /\ urls data = allUrls s
            /\ forall u, In u (urls data) -> JS.startsWith u baseUrl = true ->
                         In u (visitedUrls s).
Proof.
  intros Hclose Hcaught E. unfold MigrationComparator.crawlWebsite in E.
  apply crawlWebsite_final in E as (s & Hs & _ & -> & _).
  exists s. split; [exact Hs|]. split; [reflexivity|]. simpl.
  destruct (crawlPage_explores render baseUrl Hclose Hcaught fuel baseUrl [] []
              (newSession r)) as [_ Hend].
  { split; [intros u []|intros u []]. }
  unfold crawlRun in Hs. simpl in Hs. apply returned_Some in Hs.
  destruct (Hend Returned s Hs) as (_ & He & _ & _).
  intros u Hu Hscope. destruct (He u Hu Hscope) as [Hv|[]]. exact Hv.
Qed.

Lemma scenario_neverCloseFail : neverCloseFail Scenario.render.
Proof.
  intros r u html pageUrls caught. unfold Scenario.render.
  repeat (destruct (String.eqb u _); [discriminate|]). discriminate.
Qed.

Lemma scenario_failuresCaught : failuresCaught Scenario.render.
Proof.
  intros r u. unfold Scenario.render.
  repeat (destruct (String.eqb u _); [exact I|]). reflexivity.
Qed.

Lemma full_crawl_visits_discovered_witness :
  exists s, snd (crawlRun Scenario.render "http://o" None 2 tt) = Some (tt, s)
            /\ ["http://o/a-b"; "http://o/broken"; "http://o/a_b"] = allUrls s
            /\ forall u, In u ["http://o/a-b"; "http://o/broken"; "http://o/a_b"] ->
                         JS.startsWith u "http://o" = true ->
                         In u (visitedUrls s).
Proof.
  apply (full_crawl_visits_discovered unit Scenario.render "http://o" 2 tt tt
           (mkCrawlData ["http://o/a-b"; "http://o/broken"; "http://o/a_b"]
              (<["http___o_a_b" := "<title>Underscore</title>"]>
                 (<["http___o" := "<title>Home</title>"]> ∅)))).
  - exact scenario_neverCloseFail.
  - exact scenario_failuresCaught.
  - vm_compute. reflexivity.
Defined.

(** * Further properties of the differ and of the extractor *)

Section DifferShape.

Lemma strictNe_false (a b : JS.value) : JS.strictNe a b = false <-> a = b.
Proof.
  destruct a, b; simpl; split; intros H; try congruence; try discriminate.
  - apply negb_false_iff, String.eqb_eq in H. now subst.
  - injection H as ->. now rewrite String.eqb_refl.
Qed.

Lemma fieldChange_fields (A B : PageInfo) (names : list string) :
  List.map field (flat_map (fieldChange A B) names)
  = List.filter (fun name => JS.strictNe (prop A name) (prop B name)) names.
Proof.
  induction names as [|name names IH]; simpl; [reflexivity|].
  rewrite List.map_app, IH. unfold fieldChange.
  now destruct (JS.strictNe (prop A name) (prop B name)).
Qed.

Lemma fieldChange_In (A B : PageInfo) (names : list string) (c : Change) :
  In c (flat_map (fieldChange A B) names) ->
  In (field c) names
  /\ old c = prop A (field c) /\ new c = prop B (field c)
  /\ type c = "content_change" /\ JS.strictNe (old c) (new c) = true.
Proof.
  intros H. apply List.in_flat_map in H as (name & Hname & Hc).
  unfold fieldChange in Hc.
  destruct (JS.strictNe (prop A name) (prop B name)) eqn:E; [|destruct Hc].
  destruct Hc as [<-|[]]. simpl. now repeat split.
Qed.

Lemma fieldChange_nil (A B : PageInfo) (names : list string) :
  flat_map (fieldChange A B) names = []
  <-> forall name, In name names -> prop A name = prop B name.
Proof.
  induction names as [|name names IH]; simpl.
  - split; [intros _ ? []|reflexivity].
  - unfold fieldChange at 1.
    destruct (JS.strictNe (prop A name) (prop B name)) eqn:E.
    + split; [discriminate|]. intros H.
      assert (prop A name = prop B name) as E' by (apply H; now left).
      apply strictNe_false in E'. congruence.
    + simpl. rewrite IH. apply strictNe_false in E. split.
      * intros H n [<-|Hn]; auto.
      * intros H n Hn. apply H. now right.
Qed.

Lemma filter_NoDup_length (p : string -> bool) (l : list string) :
  List.NoDup l ->
  List.NoDup (List.filter p l) /\ List.length (List.filter p l) <= List.length l.
Proof.
  intros H. split; [now apply List.NoDup_filter|apply List.filter_length_le].
Qed.

Lemma full_comparedFields_NoDup : List.NoDup MigrationComparator.comparedFields.
Proof.
  unfold MigrationComparator.comparedFields.
  repeat (constructor;
          [simpl; intros H; repeat (destruct H as [H|H]; [discriminate|]); exact H|]).
  constructor.
Qed.

Lemma simple_comparedFields_NoDup : List.NoDup SimpleMigrationComparator.comparedFields.
Proof.
  unfold SimpleMigrationComparator.comparedFields.
  repeat (constructor;
          [simpl; intros H; repeat (destruct H as [H|H]; [discriminate|]); exact H|]).
  constructor.
Qed.

Lemma simple_url (A B : PageInfo) (u : string) :
  url (SimpleMigrationComparator.comparePageInfo A B u) = u.
Proof.
  unfold SimpleMigrationComparator.comparePageInfo. cbv zeta.
  now rewrite !compareField_url.
Qed.

(** The differ of either class, with the fields it compares. *)
Lemma class_changes (compare : PageInfo -> PageInfo -> string -> Differences)
    (fields : list string) :
  (compare = MigrationComparator.comparePageInfo
   /\ fields = MigrationComparator.comparedFields)
  \/ (compare = SimpleMigrationComparator.comparePageInfo
      /\ fields = SimpleMigrationComparator.comparedFields) ->
  List.NoDup fields
  /\ forall A B u, changes (compare A B u) = flat_map (fieldChange A B) fields
                   /\ url (compare A B u) = u.
Proof.
  intros [[-> ->]|[-> ->]].
  - split; [apply full_comparedFields_NoDup|]. intros A B u.
    split; [apply full_changes|apply full_url].
  - split; [apply simple_comparedFields_NoDup|]. intros A B u.
    split; [apply simple_changes|apply simple_url].
Qed.

End DifferShape.

(** X6: what [comparePageInfo] reports, for either class.  The fields of the
    change list are exactly the compared fields on which the two records
    differ, in the order of the schema and each at most once; every change
    carries the two values of its field and the type [content_change]; the
    list is empty exactly when the records agree on every compared field. *)
Theorem comparePageInfo_reports_differing_fields
    (compare : PageInfo -> PageInfo -> string -> Differences) (fields : list string)
    (A B : PageInfo) (u : string) :
  (compare = MigrationComparator.comparePageInfo
   /\ fields = MigrationComparator.comparedFields)
  \/ (compare = SimpleMigrationComparator.comparePageInfo
      /\ fields = SimpleMigrationComparator.comparedFields) ->
  let cs := changes (compare A B u) in
  List.map field cs
  = List.filter (fun name => JS.strictNe (prop A name) (prop B name)) fields
  /\ List.NoDup (List.map field cs)
  /\ List.length cs <= List.length fields
  /\ (forall c, In c cs ->
        old c = prop A (field c) /\ new c = prop B (field c)
        /\ type c = "content_change" /\ JS.strictNe (old c) (new c) = true)
  /\ (cs = [] <-> forall name, In name fields -> prop A name = prop B name).
Proof.
  intros Hclass. cbv zeta.
  destruct (class_changes compare fields Hclass) as [Hnd Hc].
  destruct (Hc A B u) as [-> _].
  split; [apply fieldChange_fields|]. split; [|split; [|split]].
  - rewrite fieldChange_fields. now apply filter_NoDup_length.
  - rewrite <- (List.length_map field), fieldChange_fields.
    now apply filter_NoDup_length.
  - intros c Hin. now apply fieldChange_In in Hin as (_ & H).
  - apply fieldChange_nil.
Qed.

Lemma comparePageInfo_reports_differing_fields_witness :
  List.map field
    (changes (SimpleMigrationComparator.comparePageInfo
                [("title", JS.Str "Home"); ("h1", JS.Null)]
                [("title", JS.Str "Welcome"); ("h1", JS.Null)] "http://n/"))
  = ["title"].
Proof.
  apply (comparePageInfo_reports_differing_fields
           SimpleMigrationComparator.comparePageInfo
           SimpleMigrationComparator.comparedFields
           [("title", JS.Str "Home"); ("h1", JS.Null)]
           [("title", JS.Str "Welcome"); ("h1", JS.Null)] "http://n/").
  right. split; reflexivity.
Defined.

(** X7: [MigrationComparator.comparePageInfo] never reports [mainContent]:
    two records that agree on every other field have no change, whatever
    their [mainContent]. *)
Theorem mainContent_is_never_compared (A B : PageInfo) (u : string) :
  (forall name, name <> "mainContent" -> prop A name = prop B name) ->
  changes (MigrationComparator.comparePageInfo A B u) = []
  /\ forall A' B' c,
       In c (changes (MigrationComparator.comparePageInfo A' B' u)) ->
       field c <> "mainContent".
Proof.
  intros H. split.
  - rewrite full_changes. apply fieldChange_nil. intros name Hname.
    apply H. intros ->. simpl in Hname.
    repeat (destruct Hname as [Hname|Hname]; [discriminate|]). exact Hname.
  - intros A' B' c Hc. rewrite full_changes in Hc.
    apply fieldChange_In in Hc as (Hc & _). intros E. rewrite E in Hc.
    simpl in Hc. repeat (destruct Hc as [Hc|Hc]; [discriminate|]). exact Hc.
Qed.

Lemma mainContent_is_never_compared_witness :
  changes (MigrationComparator.comparePageInfo
             [("mainContent", JS.Str "old text")]
             [("mainContent", JS.Str "new text")] "http://n/") = [].
Proof.
  apply (mainContent_is_never_compared
           [("mainContent", JS.Str "old text")]
           [("mainContent", JS.Str "new text")] "http://n/").
  intros name Hname. cbn [prop].
  destruct (String.eqb "mainContent" name) eqn:E; [|reflexivity].
  apply String.eqb_eq in E. congruence.
Defined.

Section ExtractorShape.

(** [getMetaContent] is [null] exactly when the [meta] element is there and
    has no [content]. *)
Lemma getMetaContent_null (d : Dom.Document) (name : string) :
  Dom.getMetaContent d name = JS.Null
  <-> exists meta, Dom.queryMeta d name = Some meta
                   /\ Dom.attribute (Dom.attributes meta) "content" = None.
Proof.
  unfold Dom.getMetaContent, Dom.getAttribute.
  destruct (Dom.queryMeta d name) as [meta|].
  - destruct (Dom.attribute (Dom.attributes meta) "content") as [v|] eqn:E.
    + split; [discriminate|]. intros (m & [= <-] & H). congruence.
    + split; [|reflexivity]. intros _. now exists meta.
  - split; [discriminate|]. now intros (m & H & _).
Qed.

Lemma getMetaContent_defined (d : Dom.Document) (name : string) :
  Dom.getMetaContent d name <> JS.Undefined.
Proof.
  unfold Dom.getMetaContent, Dom.getAttribute.
  destruct (Dom.queryMeta d name) as [meta|]; [|discriminate].
  now destruct (Dom.attribute (Dom.attributes meta) "content").
Qed.

(** ** [trim] *)

Lemma trimStart_first (s : string) (c : ascii) :
  firstChar (JS.trimStart s) = Some c -> JS.isSpace c = false.
Proof.
  induction s as [|a s IH]; simpl; [discriminate|].
  destruct (JS.isSpace a) eqn:E; [exact IH|].
  simpl. now intros [= <-].
Qed.

Lemma trimEnd_last (s : string) (c : ascii) :
  lastChar (JS.trimEnd s) = Some c -> JS.isSpace c = false.
Proof.
  induction s as [|a s IH]; simpl; [discriminate|].
  destruct (JS.trimEnd s) as [|b t] eqn:E.
  - destruct (JS.isSpace a) eqn:Ea; simpl; [discriminate|]. now intros [= <-].
  - simpl. exact IH.
Qed.

Lemma trimEnd_first (s : string) (c : ascii) :
  (forall a, firstChar s = Some a -> JS.isSpace a = false) ->
  firstChar (JS.trimEnd s) = Some c -> firstChar s = Some c.
Proof.
  destruct s as [|a s]; simpl; [discriminate|]. intros H.
  rewrite (H a eq_refl). now destruct (JS.trimEnd s).
Qed.

Lemma trim_trimmed (s : string) : trimmed (JS.trim s).
Proof.
  unfold JS.trim. split.
  - intros c Hc. apply trimEnd_first in Hc; [|apply trimStart_first].
    now apply trimStart_first in Hc.
  - apply trimEnd_last.
Qed.

Lemma trimStart_id (s : string) :
  (forall a, firstChar s = Some a -> JS.isSpace a = false) -> JS.trimStart s = s.
Proof.
  destruct s as [|a s]; simpl; [reflexivity|]. intros H. now rewrite (H a eq_refl).
Qed.

Lemma trimEnd_id (s : string) :
  (forall a, lastChar s = Some a -> JS.isSpace a = false) -> JS.trimEnd s = s.
Proof.
  induction s as [|a s IH]; simpl; [reflexivity|]. intros H.
  destruct s as [|b s].
  - simpl. now rewrite (H a eq_refl).
  - rewrite IH by exact H. reflexivity.
Qed.

Lemma trim_trim (s : string) : JS.trim (JS.trim s) = JS.trim s.
Proof.
  destruct (trim_trimmed s) as [H1 H2].
  unfold JS.trim at 1. rewrite (trimStart_id _ H1). now apply trimEnd_id.
Qed.

End ExtractorShape.

(** X10: the text fields are trimmed.  For either class, [h1] and [h2] (and
    [mainContent]) of the record of a page are strings with no white space at
    either end, which [trim] leaves as they are. *)
Theorem text_fields_are_trimmed (d : Dom.Document) (k : string) :
  In k ["h1"; "h2"; "mainContent"] ->
  exists t,
    prop (MigrationComparator.pageInfoOf d) k = JS.Str t
    /\ trimmed t /\ JS.trim t = t
    /\ (k <> "mainContent" ->
        prop (SimpleMigrationComparator.pageInfoOf d) k = JS.Str t).
Proof.
  assert (forall sel, trimmed (Dom.getTextContent d sel)
                      /\ JS.trim (Dom.getTextContent d sel) = Dom.getTextContent d sel)
    as Htext.
  { intros sel. unfold Dom.getTextContent.
    destruct (Dom.queryType d sel) as [el|].
    - split; [apply trim_trimmed|apply trim_trim].
    - split; [|reflexivity]. split; discriminate. }
  intros Hk. simpl in Hk. destruct Hk as [<-|[<-|[<-|[]]]].
  - exists (Dom.getTextContent d "h1"). split; [reflexivity|].
    destruct (Htext "h1") as [H1 H2].
    split; [exact H1|]. split; [exact H2|]. intros _. reflexivity.
  - exists (Dom.getTextContent d "h2"). split; [reflexivity|].
    destruct (Htext "h2") as [H1 H2].
    split; [exact H1|]. split; [exact H2|]. intros _. reflexivity.
  - exists (Dom.orElse (Dom.getTextContent d "main") (Dom.getTextContent d "body")).
    split; [reflexivity|]. unfold Dom.orElse.
    destruct (JS.truthy (Dom.getTextContent d "main")).
    + destruct (Htext "main") as [H1 H2].
      split; [exact H1|]. split; [exact H2|]. intros Hne. now destruct Hne.
    + destruct (Htext "body") as [H1 H2].
      split; [exact H1|]. split; [exact H2|]. intros Hne. now destruct Hne.
Qed.

Lemma text_fields_are_trimmed_witness :
  exists t,
    prop (MigrationComparator.pageInfoOf Scenario.bareMeta) "h1" = JS.Str t
    /\ trimmed t /\ JS.trim t = t
    /\ ("h1" <> "mainContent" ->
        prop (SimpleMigrationComparator.pageInfoOf Scenario.bareMeta) "h1" = JS.Str t).
Proof.
  apply (text_fields_are_trimmed Scenario.bareMeta "h1").
  simpl. left. reflexivity.
Defined.

(** * Further properties of the reconciliation and of the report *)

Section ReportShape.
Context {R : Type}.
Variable extractPageInfo : R -> string -> R * PageInfo.
Variable comparePageInfo : PageInfo -> PageInfo -> string -> Differences.
Variables oldDomain newDomain : string.
Variables oldData newData : CrawlData.

Local Abbreviation body :=
  (comparePair extractPageInfo comparePageInfo oldDomain newDomain oldData newData).
Local Abbreviation loop :=
  (fold_left (fun st oldUrl => body oldUrl st)).
Local Abbreviation conv := (convert oldDomain newDomain).

(** What one turn of the loop pushes. *)
Lemma comparePair_cases (oldUrl : string) (st : R * list Differences) :
  snd (body oldUrl st) = snd st
  \/ exists oldInfo newInfo,
       snd (body oldUrl st)
       = snd st ++ [comparePageInfo oldInfo newInfo (conv oldUrl)]
       /\ changes (comparePageInfo oldInfo newInfo (conv oldUrl)) <> []
       /\ present (snapshots oldData !! JS.sanitize oldUrl) = true
       /\ present (snapshots newData !! JS.sanitize (conv oldUrl)) = true.
Proof.
  unfold comparePair.
  destruct (present (snapshots oldData !! JS.sanitize oldUrl)) eqn:E1; [|now left].
  destruct (present (snapshots newData !! JS.sanitize (conv oldUrl))) eqn:E2;
    [|now left].
  simpl andb. cbv iota.
  destruct (extractPageInfo (fst st) _) as [r1 oldInfo].
  destruct (extractPageInfo r1 _) as [r2 newInfo].
  destruct (changes (comparePageInfo oldInfo newInfo _)) as [|c cs] eqn:E; simpl.
  - now left.
  - right. exists oldInfo, newInfo. rewrite E. repeat split. discriminate.
Qed.

Lemma loop_Forall (Q : Differences -> Prop) (l : list string) :
  (forall u st, In u l -> Forall Q (snd st) -> Forall Q (snd (body u st))) ->
  forall st, Forall Q (snd st) -> Forall Q (snd (loop l st)).
Proof.
  induction l as [|u l IH]; intros H st Hst; simpl; [exact Hst|].
  apply IH.
  - intros v st' Hv. apply H. now right.
  - apply H; [now left|exact Hst].
Qed.

Lemma loop_length (l : list string) (st : R * list Differences) :
  List.length (snd (loop l st)) <= List.length (snd st) + List.length l.
Proof.
  revert st. induction l as [|u l IH]; intros st; simpl; [lia|].
  etransitivity; [apply IH|].
  destruct (comparePair_cases u st) as [->|(oi & ni & -> & _)]; [lia|].
  rewrite List.length_app. simpl. lia.
Qed.

Lemma filter_split_length {A} (p : A -> bool) (l : list A) :
  List.length (List.filter p l) + List.length (List.filter (fun x => negb (p x)) l)
  = List.length l.
Proof.
  induction l as [|x l IH]; simpl; [reflexivity|].
  destruct (p x); simpl; lia.
Qed.

Lemma filter_map_length {A B} (f : A -> B) (p : B -> bool) (l : list A) :
  List.length (List.filter p (List.map f l))
  = List.length (List.filter (fun x => p (f x)) l).
Proof.
  induction l as [|x l IH]; simpl; [reflexivity|].
  destruct (p (f x)); simpl; now rewrite IH.
Qed.

End ReportShape.

(** X11: the reconciliation is a set difference in both directions.  A URL
    is reported missing exactly when it is the rewrite of an old URL and is
    not a new URL; it is reported new exactly when it is a new URL and is not
    the rewrite of an old URL; no URL is reported both ways. *)
Theorem reconciliation_is_a_difference (R : Type)
    (extractPageInfo : R -> string -> R * PageInfo)
    (comparePageInfo : PageInfo -> PageInfo -> string -> Differences)
    (oldDomain newDomain timestamp : string) (testTag : string * string)
    (oldData newData : CrawlData) (r : R) :
  let res := fst (report extractPageInfo comparePageInfo oldDomain newDomain
                    timestamp testTag oldData newData r) in
  let rewritten := List.map (convert oldDomain newDomain) (urls oldData) in
  (forall u, In u (missingUrls res) <-> In u rewritten /\ ~ In u (urls newData))
  /\ (forall u, In u (newUrls res) <-> In u (urls newData) /\ ~ In u rewritten)
  /\ (forall u, In u (missingUrls res) -> ~ In u (newUrls res)).
Proof.
  cbv zeta.
  destruct (report_members extractPageInfo comparePageInfo oldDomain newDomain
              timestamp testTag oldData newData r) as (Hm & Hn & _).
  cbv zeta in Hm, Hn. rewrite Hm, Hn.
  assert (forall arr u, negb (JS.includes arr u) = true <-> ~ In u arr) as Hneg.
  { intros arr u. rewrite negb_true_iff. apply has_false. }
  split; [|split].
  - intros u. rewrite List.filter_In, Hneg. reflexivity.
  - intros u. rewrite List.filter_In, Hneg. reflexivity.
  - intros u. rewrite !List.filter_In, !Hneg. tauto.
Qed.

Lemma reconciliation_is_a_difference_witness :
  ~ In "http://n/broken"
      (newUrls (fst (report (awaited (MigrationComparator.extractPageInfo
                                        Scenario.setContent))
                       MigrationComparator.comparePageInfo "http://o" "http://n" "t"
                       ("testDuration", "0ms")
                       (mkCrawlData ["http://o/a-b"; "http://o/broken"] ∅)
                       (mkCrawlData ["http://n/a-b"; "http://n/new"] ∅) (Some tt)))).
Proof.
  apply (reconciliation_is_a_difference (option unit)
           (awaited (MigrationComparator.extractPageInfo Scenario.setContent))
           MigrationComparator.comparePageInfo "http://o" "http://n" "t"
           ("testDuration", "0ms")
           (mkCrawlData ["http://o/a-b"; "http://o/broken"] ∅)
           (mkCrawlData ["http://n/a-b"; "http://n/new"] ∅) (Some tt)).
  vm_compute. left. reflexivity.
Defined.

(** X12: the counts of the summary fit together.  The missing URLs and the
    pages with changes together are at most the old URLs, the new URLs are at
    most the URLs of the new site, and no member of [seoImpact] exceeds the
    pages with changes. *)
Theorem summary_counts_are_consistent (R : Type)
    (extractPageInfo : R -> string -> R * PageInfo)
    (comparePageInfo : PageInfo -> PageInfo -> string -> Differences)
    (oldDomain newDomain timestamp : string) (testTag : string * string)
    (oldData newData : CrawlData) (r : R) :
  let res := fst (report extractPageInfo comparePageInfo oldDomain newDomain
                    timestamp testTag oldData newData r) in
  Summary.missingUrls (summary res) + Summary.pagesWithChanges (summary res)
  <= Summary.oldWebsiteUrls (summary res)
  /\ Summary.newUrls (summary res) <= Summary.newWebsiteUrls (summary res)
  /\ pagesWithTitleChanges (seoImpact res) <= Summary.pagesWithChanges (summary res)
  /\ pagesWithDescriptionChanges (seoImpact res) <= Summary.pagesWithChanges (summary res)
  /\ pagesWithCanonicalChanges (seoImpact res) <= Summary.pagesWithChanges (summary res).
Proof.
  cbv zeta.
  destruct (report_members extractPageInfo comparePageInfo oldDomain newDomain
              timestamp testTag oldData newData r) as (Hm & Hn & Hp & Hs & Hi).
  cbv zeta in Hm, Hn. rewrite Hs, Hi. simpl.
  split; [|split; [|repeat split; apply List.filter_length_le]].
  - rewrite Hm, Hp, filter_map_length.
    pose proof (loop_length extractPageInfo comparePageInfo oldDomain newDomain
                  oldData newData
                  (List.filter
                     (fun u => JS.includes (urls newData) (convert oldDomain newDomain u))
                     (urls oldData)) (r, [])) as Hl.
    simpl in Hl.
    pose proof (filter_split_length
                  (fun u => JS.includes (urls newData) (convert oldDomain newDomain u))
                  (urls oldData)) as Hsplit.
    lia.
  - rewrite Hn. apply List.filter_length_le.
Qed.

(** X13: every reported page is a crawled page of the new site.  For the
    differ of either class, every result in [pageComparisons] has a change,
    and its [url] is the rewrite of an old URL, is among the URLs of the new
    crawl, and both crawls hold a non-empty snapshot under the keys of the
    old URL and of its rewrite. *)
Theorem reported_pages_are_common_pages (R : Type)
    (extractPageInfo : R -> string -> R * PageInfo)
    (comparePageInfo : PageInfo -> PageInfo -> string -> Differences)
    (oldDomain newDomain timestamp : string) (testTag : string * string)
    (oldData newData : CrawlData) (r : R) (p : Differences) :
  comparePageInfo = MigrationComparator.comparePageInfo
  \/ comparePageInfo = SimpleMigrationComparator.comparePageInfo ->
  In p (pageComparisons
          (fst (report extractPageInfo comparePageInfo oldDomain newDomain
                  timestamp testTag oldData newData r))) ->
  exists oldUrl,
    In oldUrl (urls oldData)
    /\ url p = convert oldDomain newDomain oldUrl
    /\ In (url p) (urls newData)
    /\ present (snapshots oldData !! JS.sanitize oldUrl) = true
    /\ present (snapshots newData !! JS.sanitize (url p)) = true
    /\ changes p <> [].
Proof.
  intros Hclass.
  assert (forall A B u, url (comparePageInfo A B u) = u) as Hurl.
  { intros A B u. destruct Hclass as [-> | ->]; [apply full_url|apply simple_url]. }
  destruct (report_members extractPageInfo comparePageInfo oldDomain newDomain
              timestamp testTag oldData newData r) as (_ & _ & Hp & _).
  rewrite Hp. clear Hp. revert p. apply List.Forall_forall.
  apply loop_Forall; [|constructor].
  intros u st Hu Hst. apply List.filter_In in Hu as [Hold Hnew].
  apply has_true in Hnew.
  destruct (comparePair_cases extractPageInfo comparePageInfo oldDomain newDomain
              oldData newData u st) as [->|(oi & ni & -> & Hc & H1 & H2)];
    [exact Hst|].
  apply Forall_app. split; [exact Hst|]. constructor; [|constructor].
  exists u. rewrite Hurl. now repeat split.
Qed.

Lemma reported_pages_are_common_pages_witness :
  exists oldUrl,
    In oldUrl (urls Scenario.oldKeywords)
    /\ "http://n/p" = convert "http://o" "http://n" oldUrl
    /\ In "http://n/p" (urls Scenario.newKeywords)
    /\ present (snapshots Scenario.oldKeywords !! JS.sanitize oldUrl) = true
    /\ present (snapshots Scenario.newKeywords !! JS.sanitize "http://n/p") = true
    /\ [mkChange "keywords" (JS.Str "old") (JS.Str "new") "content_change"] <> [].
Proof.
  apply (reported_pages_are_common_pages (option unit)
           (awaited (MigrationComparator.extractPageInfo Scenario.loadKeywords))
           MigrationComparator.comparePageInfo "http://o" "http://n" "t"
           ("testDuration", "0ms") Scenario.oldKeywords Scenario.newKeywords (Some tt)
           (mkDifferences "http://n/p"
              [mkChange "keywords" (JS.Str "old") (JS.Str "new") "content_change"])).
  - left. reflexivity.
  - vm_compute. left. reflexivity.
Defined.

(** X14: two sites with the same pages give an empty comparison.  When
    extracting the same HTML text twice in a row gives the same record, and
    for every old URL whose rewrite is a new URL the two crawls hold the same
    snapshot under the two keys, [pageComparisons] is empty,
    [pagesWithChanges] is 0 and so is every member of [seoImpact]. *)
Theorem identical_snapshots_give_no_changes (R : Type)
    (extractPageInfo : R -> string -> R * PageInfo)
    (comparePageInfo : PageInfo -> PageInfo -> string -> Differences)
    (oldDomain newDomain timestamp : string) (testTag : string * string)
    (oldData newData : CrawlData) (r : R) :
  comparePageInfo = MigrationComparator.comparePageInfo
  \/ comparePageInfo = SimpleMigrationComparator.comparePageInfo ->
  (forall r html,
     snd (extractPageInfo (fst (extractPageInfo r html)) html)
     = snd (extractPageInfo r html)) ->
  (forall oldUrl,
     In oldUrl (urls oldData) ->
     In (convert oldDomain newDomain oldUrl) (urls newData) ->
     snapshots oldData !! JS.sanitize oldUrl
     = snapshots newData !! JS.sanitize (convert oldDomain newDomain oldUrl)) ->
  let res := fst (report extractPageInfo comparePageInfo oldDomain newDomain
                    timestamp testTag oldData newData r) in
  pageComparisons res = []
  /\ Summary.pagesWithChanges (summary res) = 0
  /\ seoImpact res = mkSeoImpact 0 0 0.
Proof.
  intros Hclass Hpure Hsame. cbv zeta.
  assert (forall A u, changes (comparePageInfo A A u) = []) as Hrefl.
  { intros A u. destruct Hclass as [-> | ->];
      [apply full_comparePageInfo_same|apply simple_comparePageInfo_same]. }
  destruct (report_members extractPageInfo comparePageInfo oldDomain newDomain
              timestamp testTag oldData newData r) as (_ & _ & Hp & Hs & Hi).
  assert (pageComparisons
            (fst (report extractPageInfo comparePageInfo oldDomain newDomain
                    timestamp testTag oldData newData r)) = []) as Hnil.
  { rewrite Hp. clear Hp Hs Hi.
    assert (forall l st,
              (forall u, In u l -> In u (urls oldData)
                                   /\ In (convert oldDomain newDomain u) (urls newData)) ->
              snd st = [] ->
              snd (fold_left
                     (fun st oldUrl =>
                        comparePair extractPageInfo comparePageInfo oldDomain newDomain
                          oldData newData oldUrl st) l st) = []) as Hloop.
    { induction l as [|u l IH]; intros st Hl Hst; simpl; [exact Hst|].
      apply IH; [intros v Hv; apply Hl; now right|].
      destruct (Hl u (or_introl eq_refl)) as [Hold Hnew].
      unfold comparePair. rewrite <- (Hsame u Hold Hnew).
      destruct (present (snapshots oldData !! JS.sanitize u)
                && present (snapshots oldData !! JS.sanitize u)); [|exact Hst].
      pose proof (Hpure (fst st) (default "" (snapshots oldData !! JS.sanitize u)))
        as Heq.
      destruct (extractPageInfo (fst st) _) as [r1 oldInfo]. simpl in Heq.
      destruct (extractPageInfo r1 _) as [r2 newInfo]. simpl in Heq. subst newInfo.
      rewrite Hrefl. simpl. exact Hst. }
    apply Hloop; [|reflexivity].
    intros u Hu. apply List.filter_In in Hu as [Hold Hnew].
    split; [exact Hold|now apply has_true]. }
  rewrite Hs, Hi, Hnil. now repeat split.
Qed.

Lemma scenario_extraction_repeats (st : option unit) (html : string) :
  snd (awaited (MigrationComparator.extractPageInfo Scenario.setContent)
         (fst (awaited (MigrationComparator.extractPageInfo Scenario.setContent) st html))
         html)
  = snd (awaited (MigrationComparator.extractPageInfo Scenario.setContent) st html).
Proof.
  destruct st as [[]|]; [|reflexivity].
  unfold awaited, MigrationComparator.extractPageInfo, Scenario.setContent.
  repeat (destruct (String.eqb html _); [reflexivity|]). reflexivity.
Qed.

Lemma identical_snapshots_give_no_changes_witness :
  pageComparisons
    (fst (report (awaited (MigrationComparator.extractPageInfo Scenario.setContent))
            MigrationComparator.comparePageInfo "http://o" "http://n" "t"
            ("testDuration", "0ms") Scenario.oldSame Scenario.newSame (Some tt))) = [].
Proof.
  apply (identical_snapshots_give_no_changes (option unit)
           (awaited (MigrationComparator.extractPageInfo Scenario.setContent))
           MigrationComparator.comparePageInfo "http://o" "http://n" "t"
           ("testDuration", "0ms") Scenario.oldSame Scenario.newSame (Some tt)).
  - left. reflexivity.
  - exact scenario_extraction_repeats.
  - intros oldUrl [<-|[]] _. vm_compute. reflexivity.
Defined.

(** ** The whole run *)

Section WholeRun.
Context {R : Type}.
Variable render : R -> string -> R * Outcome.
Variable extractPageInfo : R -> string -> R * option PageInfo.
Variable comparePageInfo : PageInfo -> PageInfo -> string -> Differences.
Variable maxPages : option nat.
Variables oldDomain newDomain timestamp : string.
Variable testTag : string * string.


End WholeRun.

(** A run in which [extractPageInfo] is rejected has no results. *)
Example rejected_extraction_gives_no_results :
  MigrationComparator.compareWebsites Scenario.render Scenario.rejected
    "http://o" "http://n" "t" "0ms" 2 tt = None.
Proof. vm_compute. reflexivity. Qed.

(** A run in which every call of [extractPageInfo] throws an error with a
    message compares the records of the [catch] branch, and reports no
    change. *)
Example faulty_extraction_gives_no_changes :
  option_map (fun x => pageComparisons (fst x))
    (MigrationComparator.compareWebsites Scenario.render Scenario.faulty
       "http://o" "http://n" "t" "0ms" 2 tt) = Some [].
Proof. vm_compute. reflexivity. Qed.



(** * Properties of the command line *)

Section CommandLine.

Lemma split_nonempty (sep : ascii) (s : string) : split sep s <> [].
Proof.
  destruct s as [|c s]; simpl; [discriminate|].
  destruct (Ascii.eqb c sep); [discriminate|].
  destruct (split sep s); discriminate.
Qed.

Lemma split_before (key v : string) :
  includesChar key "=" = false ->
  split "=" (key +:+ String "=" v) = key :: split "=" v.
Proof.
  induction key as [|c key IH]; intros H.
  - reflexivity.
  - rewrite append_cons. simpl in *. apply orb_false_elim in H as [Hc Hk].
    rewrite Hc, (IH Hk). reflexivity.
Qed.

Lemma split_whole (v : string) :
  includesChar v "=" = false -> split "=" v = [v].
Proof.
  induction v as [|c v IH]; intros H; [reflexivity|].
  simpl in *. apply orb_false_elim in H as [Hc Hv]. now rewrite Hc, (IH Hv).
Qed.

Lemma firstPiece_before (w t : string) :
  includesChar w "=" = false -> firstPiece (w +:+ String "=" t) = w.
Proof. intros H. unfold firstPiece. now rewrite split_before. Qed.

Lemma firstPiece_whole (v : string) :
  includesChar v "=" = false -> firstPiece v = v.
Proof. intros H. unfold firstPiece. now rewrite split_whole. Qed.

(** The first piece of a text is the text up to its first [=]. *)
Lemma firstPiece_prefix (s : string) : JS.startsWith s (firstPiece s) = true.
Proof.
  unfold firstPiece. induction s as [|c s IH]; [reflexivity|].
  simpl. destruct (Ascii.eqb c "=") eqn:E; [reflexivity|].
  destruct (split "=" s) as [|piece pieces] eqn:Es.
  - now destruct (split_nonempty "=" s).
  - simpl in *. now rewrite Ascii.eqb_refl.
Qed.

Lemma includesChar_app (a b : string) (c : ascii) :
  includesChar (a +:+ b) c = includesChar a c || includesChar b c.
Proof.
  induction a as [|x a IH]; [reflexivity|].
  rewrite append_cons. simpl. now rewrite IH, orb_assoc.
Qed.

(** The pieces and the value of the argument [--key=v]. *)
Lemma long_option_pieces (key v : string) :
  includesChar key "=" = false ->
  let arg := "--" +:+ key +:+ String "=" v in
  JS.startsWith arg "--" = true
  /\ includesChar arg "=" = true
  /\ keyOf (split "=" (JS.slice 2 arg)) = key
  /\ valueOf (split "=" (JS.slice 2 arg)) = Text (firstPiece v).
Proof.
  intros H. cbv zeta. split; [reflexivity|]. split.
  - rewrite includesChar_app, includesChar_app. simpl.
    now rewrite orb_true_r.
  - change (JS.slice 2 ("--" +:+ key +:+ String "=" v)) with (key +:+ String "=" v).
    rewrite (split_before key v H). split; [reflexivity|].
    unfold firstPiece. destruct (split "=" v) as [|p ps] eqn:E; [|reflexivity].
    now destruct (split_nonempty "=" v).
Qed.

Lemma startsWith_dash (arg : string) :
  JS.startsWith arg "--" = true -> JS.startsWith arg "-" = true.
Proof.
  destruct arg as [|a arg]; cbn [JS.startsWith]; [discriminate|].
  destruct (Ascii.eqb "-" a); [reflexivity|discriminate].
Qed.

(** A long option at the end of the arguments is read last, by both
    versions. *)
Lemma class_parseLoop_snoc (arg : string) :
  JS.startsWith arg "--" = true ->
  forall n args options, List.length args <= n ->
    ClassMain.parseLoop (args ++ [arg]) options
    = ClassMain.parseLoop [arg] (ClassMain.parseLoop args options).
Proof.
  intros Harg. pose proof (startsWith_dash arg Harg) as Hdash.
  induction n as [|n IH]; intros args options Hlen.
  - destruct args; [reflexivity|simpl in Hlen; lia].
  - destruct args as [|a rest]; [reflexivity|]. simpl in Hlen.
    cbn [app ClassMain.parseLoop].
    destruct (JS.startsWith a "--"); [apply IH; lia|].
    destruct (JS.startsWith a "-"); [|apply IH; lia].
    destruct rest as [|value rest'].
    + simpl app. cbn [takesValue]. rewrite Hdash, andb_false_r.
      cbn [ClassMain.parseLoop]. rewrite Harg. reflexivity.
    + simpl app. cbn [takesValue].
      destruct (JS.truthy value && negb (JS.startsWith value "-")).
      * apply IH. simpl in Hlen. lia.
      * apply (IH (value :: rest')). simpl in *. lia.
Qed.

Lemma driver_parseLoop_snoc (arg : string) :
  JS.startsWith arg "--" = true ->
  forall n args options, List.length args <= n ->
    Driver.parseLoop (args ++ [arg]) options
    = Driver.parseLoop [arg] (Driver.parseLoop args options).
Proof.
  intros Harg. pose proof (startsWith_dash arg Harg) as Hdash.
  induction n as [|n IH]; intros args options Hlen.
  - destruct args; [reflexivity|simpl in Hlen; lia].
  - destruct args as [|a rest]; [reflexivity|]. simpl in Hlen.
    cbn [app Driver.parseLoop].
    destruct (JS.startsWith a "--").
    { destruct (includesChar a "="); apply IH; lia. }
    destruct (JS.startsWith a "-"); [|apply IH; lia].
    destruct rest as [|value rest'].
    + simpl app. cbn [takesValue]. rewrite Hdash, andb_false_r.
      cbn [Driver.parseLoop]. rewrite Harg. reflexivity.
    + simpl app. cbn [takesValue].
      destruct (JS.truthy value && negb (JS.startsWith value "-")).
      * apply IH. simpl in Hlen. lia.
      * apply (IH (value :: rest')). simpl in *. lia.
Qed.

End CommandLine.

(** X16: the value of a long option is cut at its first [=], and the last
    occurrence wins.  For a key without [=] other than [__proto__], after
    any arguments the argument [--key=v] leaves under [key] the text of [v]
    up to its first [=], in both versions of [parseArguments]: all of [v]
    when [v] has no [=], and [w] when [v] is [w=t]. *)
Theorem long_option_value_is_cut_at_equals (args : list string) (key v : string) :
  includesChar key "=" = false ->
  key <> "__proto__" ->
  ClassMain.parseArguments (args ++ ["--" +:+ key +:+ String "=" v]) !! key
  = Some (Text (firstPiece v))
  /\ Driver.parseArguments (args ++ ["--" +:+ key +:+ String "=" v]) !! key
     = Some (Text (firstPiece v))
  /\ (includesChar v "=" = false -> firstPiece v = v)
  /\ (forall w t, v = w +:+ String "=" t -> includesChar w "=" = false ->
                  firstPiece v = w).
Proof.
  intros Hkey Hproto.
  destruct (long_option_pieces key v Hkey) as (H1 & H2 & H3 & H4).
  apply String.eqb_neq in Hproto.
  split; [|split; [|split]].
  - unfold ClassMain.parseArguments.
    rewrite (class_parseLoop_snoc _ H1 (List.length args)) by lia.
    cbn [ClassMain.parseLoop]. rewrite H1, H3, H4. unfold assign.
    rewrite Hproto. apply lookup_insert_eq.
  - unfold Driver.parseArguments.
    rewrite (driver_parseLoop_snoc _ H1 (List.length args)) by lia.
    cbn [Driver.parseLoop]. rewrite H1, H2, H3, H4. unfold assign.
    rewrite Hproto. apply lookup_insert_eq.
  - apply firstPiece_whole.
  - intros w t -> Hw. now apply firstPiece_before.
Qed.

Lemma long_option_value_is_cut_at_equals_witness :
  Driver.parseArguments (["--quick"] ++ ["--" +:+ "old" +:+ String "=" "https://o.com/?a=1"])
    !! "old"
  = Some (Text (firstPiece "https://o.com/?a=1")).
Proof.
  apply (long_option_value_is_cut_at_equals ["--quick"] "old" "https://o.com/?a=1").
  - reflexivity.
  - apply String.eqb_neq. reflexivity.
Defined.

Section OptionKeys.

Lemma startsWith_refl (s : string) : JS.startsWith s s = true.
Proof. induction s as [|c s IH]; simpl; [reflexivity|]. now rewrite Ascii.eqb_refl. Qed.

Lemma startsWith_after (n : nat) (a p q : string) :
  String.length p = n ->
  JS.startsWith a p = true -> JS.startsWith (JS.slice n a) q = true ->
  JS.startsWith a (p +:+ q) = true.
Proof.
  revert a p. induction n as [|n IH]; intros a p Hn Hp Hq.
  - destruct p; [exact Hq|discriminate].
  - destruct p as [|c p]; [discriminate|]. injection Hn as Hn.
    destruct a as [|b a]; [discriminate|].
    rewrite append_cons. cbn [JS.startsWith JS.slice] in *.
    destruct (Ascii.eqb c b); [|discriminate]. now apply IH.
Qed.

Lemma slice_whole (n : nat) (a p : string) :
  String.length p = n -> JS.startsWith a p = true -> a = p +:+ JS.slice n a.
Proof.
  revert a p. induction n as [|n IH]; intros a p Hn Hp.
  - destruct p; [reflexivity|discriminate].
  - destruct p as [|c p]; [discriminate|]. injection Hn as Hn.
    destruct a as [|b a]; [discriminate|].
    rewrite append_cons. cbn [JS.startsWith JS.slice] in *.
    destruct (Ascii.eqb c b) eqn:E; [|discriminate].
    apply Ascii.eqb_eq in E. subst b. f_equal. now apply IH.
Qed.

Lemma assign_other (options : gmap string OptionValue) (key k : string) (v : OptionValue) :
  key <> k -> assign options key v !! k = options !! k.
Proof.
  intros H. unfold assign. destruct (String.eqb key "__proto__"); [reflexivity|].
  now apply lookup_insert_ne.
Qed.

(** A key that no argument names stays unset. *)
Lemma unnamed_long (k a : string) :
  JS.startsWith a "--" = true -> JS.startsWith a ("--" +:+ k) = false ->
  keyOf (split "=" (JS.slice 2 a)) <> k /\ JS.slice 2 a <> k.
Proof.
  intros Ha Hk. split; intros E.
  - pose proof (firstPiece_prefix (JS.slice 2 a)) as Hp. unfold firstPiece in Hp.
    rewrite E in Hp.
    rewrite (startsWith_after 2 a "--" k eq_refl Ha Hp) in Hk. discriminate.
  - pose proof (startsWith_refl (JS.slice 2 a)) as Hp. rewrite E in Hp at 2.
    rewrite (startsWith_after 2 a "--" k eq_refl Ha Hp) in Hk. discriminate.
Qed.

Lemma unnamed_short (k a : string) :
  JS.startsWith a "-" = true -> a <> "-" +:+ k -> JS.slice 1 a <> k.
Proof.
  intros Ha Hk E. apply Hk. rewrite <- E. now apply (slice_whole 1 a "-").
Qed.

Lemma class_unnamed_key (k : string) :
  forall n args options, List.length args <= n ->
    options !! k = None ->
    (forall a, In a args -> JS.startsWith a ("--" +:+ k) = false /\ a <> "-" +:+ k) ->
    ClassMain.parseLoop args options !! k = None.
Proof.
  induction n as [|n IH]; intros args options Hlen Hk Hargs.
  - destruct args; [exact Hk|simpl in Hlen; lia].
  - destruct args as [|a rest]; [exact Hk|]. simpl in Hlen.
    destruct (Hargs a (or_introl eq_refl)) as [Hlong Hshort].
    assert (forall x, In x rest ->
              JS.startsWith x ("--" +:+ k) = false /\ x <> "-" +:+ k) as Hrest.
    { intros x Hx. apply Hargs. now right. }
    cbn [ClassMain.parseLoop].
    destruct (JS.startsWith a "--") eqn:E2.
    { apply IH; [lia| |exact Hrest].
      rewrite assign_other; [exact Hk|]. now apply unnamed_long. }
    destruct (JS.startsWith a "-") eqn:E1; [|apply IH; [lia|exact Hk|exact Hrest]].
    destruct rest as [|value rest']; [exact Hk|].
    destruct (takesValue (value :: rest')).
    + apply IH; [simpl in Hlen; lia| |intros x Hx; apply Hrest; now right].
      rewrite assign_other; [exact Hk|]. now apply unnamed_short.
    + apply IH; [lia|exact Hk|exact Hrest].
Qed.

Lemma driver_unnamed_key (k : string) :
  forall n args options, List.length args <= n ->
    options !! k = None ->
    (forall a, In a args -> JS.startsWith a ("--" +:+ k) = false /\ a <> "-" +:+ k) ->
    Driver.parseLoop args options !! k = None.
Proof.
  induction n as [|n IH]; intros args options Hlen Hk Hargs.
  - destruct args; [exact Hk|simpl in Hlen; lia].
  - destruct args as [|a rest]; [exact Hk|]. simpl in Hlen.
    destruct (Hargs a (or_introl eq_refl)) as [Hlong Hshort].
    assert (forall x, In x rest ->
              JS.startsWith x ("--" +:+ k) = false /\ x <> "-" +:+ k) as Hrest.
    { intros x Hx. apply Hargs. now right. }
    cbn [Driver.parseLoop].
    destruct (JS.startsWith a "--") eqn:E2.
    { destruct (unnamed_long k a E2 Hlong) as [H1 H2].
      destruct (includesChar a "="); (apply IH; [lia| |exact Hrest]);
        now rewrite assign_other. }
    destruct (JS.startsWith a "-") eqn:E1; [|apply IH; [lia|exact Hk|exact Hrest]].
    pose proof (unnamed_short k a E1 Hshort) as H1.
    destruct rest as [|value rest']; [now rewrite assign_other|].
    destruct (takesValue (value :: rest')).
    + apply IH; [simpl in Hlen; lia| |intros x Hx; apply Hrest; now right].
      now rewrite assign_other.
    + apply IH; [lia| |exact Hrest]. now rewrite assign_other.
Qed.

End OptionKeys.

(** X17: the short options [-o] and [-n] do not give the domains.  An
    option is set only by an argument that names it: when no argument
    starts with [--old] or is [-old] (or none starts with [--new] or is
    [-new]), both versions of the main block print the usage and stop; so
    they do for [-o <old> -n <new>]. *)
Theorem domains_need_their_long_names (args : list string) (k : string) :
  k = "old" \/ k = "new" ->
  (forall a, In a args -> JS.startsWith a ("--" +:+ k) = false /\ a <> "-" +:+ k) ->
  ClassMain.parseArguments args !! k = None
  /\ Driver.parseArguments args !! k = None
  /\ ClassMain.main args = None
  /\ Driver.main args = None.
Proof.
  intros Hk Hargs.
  assert (ClassMain.parseArguments args !! k = None) as Hc.
  { apply (class_unnamed_key k (List.length args)); [lia|apply lookup_empty|exact Hargs]. }
  assert (Driver.parseArguments args !! k = None) as Hd.
  { apply (driver_unnamed_key k (List.length args)); [lia|apply lookup_empty|exact Hargs]. }
  split; [exact Hc|]. split; [exact Hd|].
  unfold ClassMain.main, Driver.main. cbv zeta.
  destruct Hk as [-> | ->]; rewrite Hc, Hd; simpl; rewrite ?orb_true_r; now split.
Qed.

Lemma domains_need_their_long_names_witness :
  Driver.main ["-o"; "https://o.com"; "-n"; "https://n.com"] = None.
Proof.
  apply (domains_need_their_long_names
           ["-o"; "https://o.com"; "-n"; "https://n.com"] "old").
  - left. reflexivity.
  - intros a Ha. simpl in Ha.
    repeat (destruct Ha as [Ha|Ha]; [subst a; split; [reflexivity|discriminate]|]).
    destruct Ha.
Defined.

(** X18: what selects the quick comparison.  When the driver starts a
    comparison for some arguments, it starts the quick one, with the same
    domains, once [--quick] is added at their end; with [--quick=v] added it
    starts the quick one exactly when the text of [v] before its first [=]
    is not empty, so also for [--quick=false]. *)
Theorem quick_is_any_non_empty_value (args : list string) (q : bool)
    (o n : OptionValue) (v : string) :
  Driver.main args = Some (q, o, n) ->
  Driver.main (args ++ ["--quick"]) = Some (true, o, n)
  /\ Driver.main (args ++ ["--quick" +:+ String "=" v])
     = Some (JS.truthy (firstPiece v), o, n)
  /\ firstPiece "false" = "false".
Proof.
  intros H. unfold Driver.main in *. cbv zeta in *.
  destruct (negb (isSet (Driver.parseArguments args !! "old"))
            || negb (isSet (Driver.parseArguments args !! "new"))) eqn:E;
    [discriminate|].
  injection H as _ Ho Hn.
  split; [|split; [|reflexivity]].
  - unfold Driver.parseArguments in *.
    rewrite (driver_parseLoop_snoc "--quick" eq_refl (List.length args)) by lia.
    change (Driver.parseLoop ["--quick"] (Driver.parseLoop args ∅))
      with (<["quick" := Flag]> (Driver.parseLoop args ∅)).
    rewrite !lookup_insert_ne by discriminate. rewrite lookup_insert_eq.
    rewrite E, Ho, Hn. reflexivity.
  - unfold Driver.parseArguments in *.
    destruct (long_option_pieces "quick" v eq_refl) as (H1 & H2 & H3 & H4).
    cbv zeta in H1, H2, H3, H4.
    change ("--" +:+ "quick" +:+ String "=" v) with ("--quick" +:+ String "=" v)
      in H1, H2, H3, H4.
    rewrite (driver_parseLoop_snoc _ H1 (List.length args)) by lia.
    cbn [Driver.parseLoop]. rewrite H1, H2, H3, H4.
    change (assign (Driver.parseLoop args ∅) "quick" (Text (firstPiece v)))
      with (<["quick" := Text (firstPiece v)]> (Driver.parseLoop args ∅)).
    rewrite !lookup_insert_ne by discriminate. rewrite lookup_insert_eq.
    rewrite E, Ho, Hn. reflexivity.
Qed.

Lemma quick_is_any_non_empty_value_witness :
  Driver.main (["--old=https://o.com"; "--new=https://n.com"]
               ++ ["--quick" +:+ String "=" "false"])
  = Some (JS.truthy (firstPiece "false"), Text "https://o.com", Text "https://n.com").
Proof.
  apply (quick_is_any_non_empty_value ["--old=https://o.com"; "--new=https://n.com"]
           false (Text "https://o.com") (Text "https://n.com") "false").
  vm_compute. reflexivity.
Defined.

(** * The text of a change in the written report *)

Lemma orEmpty_text (v : JS.value) :
  orEmpty v <> "(empty)" -> v = JS.Str (orEmpty v).
Proof.
  destruct v as [| |s]; simpl; try congruence.
  destruct (JS.truthy s); congruence.
Qed.

(** X19: the report prints an empty-like value as [(empty)].  For two
    values that differ, the lines [Old Value] and [New Value] of a change
    carry the same text exactly when both print as [(empty)]; that is so for
    a change from [null] to the empty string, which the differ reports. *)
Theorem differing_values_can_print_alike (a b : JS.value) :
  JS.strictNe a b = true ->
  (orEmpty a = orEmpty b <-> orEmpty a = "(empty)" /\ orEmpty b = "(empty)")
  /\ (forall name i,
        changeText (mkChange name a b "content_change") i
        = "### " +:+ decimal (i + 1) +:+ ". " +:+ name +:+ newline +:+ newline
          +:+ "**Old Value:** " +:+ orEmpty a +:+ newline
          +:+ "**New Value:** " +:+ orEmpty b)
  /\ orEmpty JS.Null = orEmpty (JS.Str "")
  /\ JS.strictNe JS.Null (JS.Str "") = true.
Proof.
  intros H. split; [|split; [|split]]; try reflexivity.
  split.
  - intros E. destruct (decide (orEmpty a = "(empty)")) as [Ha|Ha].
    + split; congruence.
    + exfalso. pose proof (orEmpty_text a Ha) as Ea.
      assert (orEmpty b <> "(empty)") as Hb by congruence.
      pose proof (orEmpty_text b Hb) as Eb.
      assert (a = b) as <- by congruence.
      rewrite strictNe_refl in H. discriminate.
  - intros [-> ->]. reflexivity.
Qed.

Lemma differing_values_can_print_alike_witness :
  orEmpty JS.Null = orEmpty (JS.Str "")
  <-> orEmpty JS.Null = "(empty)" /\ orEmpty (JS.Str "") = "(empty)".
Proof.
  apply (differing_values_can_print_alike JS.Null (JS.Str "")).
  reflexivity.
Defined.
